(** * ScreenshotRenamer: the naming engine and the rename executor

    A shallow embedding of [src/screenshot_renamer/screenshot.py]
    (class [RenamerHandler]) together with the parts of the Python
    standard library the class calls: [str] methods, [posixpath], [re],
    [hashlib.sha256], [datetime] and the file-system calls of [os] and
    [shutil].

    Conventions.
    - A Python [str] is a list of characters; a character is an 8-bit
      code point (the Latin-1 range of Unicode).
    - [os.path] is [posixpath]: the separator is [/].
    - A raised exception is the [Raise] branch of [result]; it
      propagates through [bind] exactly as through a Python call that has
      no [try] around it (the class has none).
    - The file system is a finite map from path strings to nodes.  Two
      different path strings name two different nodes (no links, no
      normalisation of [.], [..] or doubled separators).
    - A modification time is a whole number of microseconds since the
      epoch, the resolution [datetime.fromtimestamp] rounds [st_mtime] to.
    - Logging calls are left out: they have no effect on results. *)

From Stdlib Require Import ZArith List Ascii String Bool Lia.
From Stdlib Require Import Strings.Byte.
From stdpp Require Import base option list gmap strings.
Import ListNotations.
Local Open Scope Z_scope.

Abbreviation str := (list ascii).

(** Character comparisons stay folded under [simpl]. *)
Global Arguments Ascii.eqb : simpl never.

(** A string literal of the source, as a list of characters. *)
Definition py (s : string) : str := list_ascii_of_string s.

(** ** Exceptions *)

Inductive exn : Type :=
  | FileNotFoundError
  | PermissionError
  | IsADirectoryError
  | ValueError
  | KeyError
  | UnknownTimeZoneError.

(** The subclasses of [OSError] among the exceptions above. *)
Definition is_OSError (e : exn) : bool :=
  match e with
  | FileNotFoundError | PermissionError | IsADirectoryError => true
  | ValueError | KeyError | UnknownTimeZoneError => false
  end.

Inductive result (A : Type) : Type :=
  | Ok (a : A)
  | Raise (e : exn).
Arguments Ok {A} a.
Arguments Raise {A} e.

Definition bind {A B : Type} (m : result A) (k : A -> result B) : result B :=
  match m with
  | Ok a => k a
  | Raise e => Raise e
  end.

Notation "'let*' x ':=' m 'in' k" := (bind m (fun x => k))
  (at level 10, x name, m at level 100, k at level 200).

(** ** Methods of [str] *)

Module PyStr.

Definition code (c : ascii) : Z := Z.of_nat (nat_of_ascii c).

Definition chr (n : Z) : ascii := ascii_of_nat (Z.to_nat n).

Definition eqb (s t : str) : bool := bool_decide (s = t).

(** [s.rfind(c)] for a one-character [c]: the highest index of [c] in
    [s], or [-1]. *)
Fixpoint rfind (c : ascii) (s : str) : Z :=
  match s with
  | [] => -1
  | x :: s' =>
      let r := rfind c s' in
      if 0 <=? r then r + 1
      else if Ascii.eqb x c then 0 else -1
  end.

(** A slice bound [i] of a string of length [n], as Python resolves it:
    a negative bound counts from the end and is clamped at [0]. *)
Definition bound (i : Z) (n : nat) : nat :=
  if i <? 0 then Z.to_nat (Z.max 0 (Z.of_nat n + i)) else Z.to_nat i.

(** [s[i:]] *)
Definition slice_from (s : str) (i : Z) : str := drop (bound i (length s)) s.

(** [s[:i]] *)
Definition slice_to (s : str) (i : Z) : str := take (bound i (length s)) s.

(** [s[i:j]] *)
Definition slice (s : str) (i j : Z) : str :=
  let lo := bound i (length s) in
  let hi := bound j (length s) in
  take (hi - lo) (drop lo s).

Definition startswith (s : str) (c : ascii) : bool :=
  match s with
  | x :: _ => Ascii.eqb x c
  | [] => false
  end.

Definition endswith (s : str) (c : ascii) : bool :=
  match rev s with
  | x :: _ => Ascii.eqb x c
  | [] => false
  end.

(** [str.lower] on the Latin-1 range: [A-Z] and the accented capitals
    U+00C0..U+00DE (but not the multiplication sign U+00D7) move up by
    32; every other character is its own lower case. *)
Definition lower_char (c : ascii) : ascii :=
  let n := code c in
  if ((65 <=? n) && (n <=? 90))
     || ((192 <=? n) && (n <=? 222) && negb (n =? 215))
  then chr (n + 32) else c.

Definition lower (s : str) : str := map lower_char s.

(** [str.isspace] on the Latin-1 range. *)
Definition is_space (c : ascii) : bool :=
  let n := code c in
  ((9 <=? n) && (n <=? 13)) || ((28 <=? n) && (n <=? 32))
  || (n =? 133) || (n =? 160).

Fixpoint lstrip_with (p : ascii -> bool) (s : str) : str :=
  match s with
  | c :: s' => if p c then lstrip_with p s' else s
  | [] => []
  end.

Definition rstrip_with (p : ascii -> bool) (s : str) : str :=
  rev (lstrip_with p (rev s)).

(** [s.strip()] *)
Definition strip (s : str) : str := rstrip_with is_space (lstrip_with is_space s).

(** [s.rstrip(c)] for a one-character [c] *)
Definition rstrip (s : str) (c : ascii) : str := rstrip_with (Ascii.eqb c) s.

(** [template.format] with keyword arguments [kw], for templates made of literal text and
    plain replacement fields [{name}] (no doubled braces, conversions
    or format specifications; [CONSTRUCT_FN] has none).  [field] is the
    name being read inside an open brace. *)
Fixpoint format_from (tmpl : str) (field : option str) (kw : list (str * str))
  : result str :=
  match tmpl with
  | [] =>
      match field with
      | None => Ok []
      | Some _ => Raise ValueError
      end
  | c :: rest =>
      match field with
      | None =>
          if Ascii.eqb c "{" then format_from rest (Some []) kw
          else if Ascii.eqb c "}" then Raise ValueError
          else let* r := format_from rest None kw in Ok (c :: r)
      | Some name =>
          if Ascii.eqb c "}" then
            match list_find (fun kv => name = kv.1) kw with
            | Some (_, kv) => let* r := format_from rest None kw in Ok (kv.2 ++ r)
            | None => Raise KeyError
            end
          else format_from rest (Some (name ++ [c])) kw
      end
  end.

Definition format (tmpl : str) (kw : list (str * str)) : result str :=
  format_from tmpl None kw.

End PyStr.

(** ** [posixpath] *)

Module posixpath.
Import PyStr.

Definition sep : ascii := "/".
Definition extsep : ascii := ".".

(** [basename(p)]: [i = p.rfind(sep) + 1; return p[i:]] *)
Definition basename (p : str) : str :=
  let i := rfind sep p + 1 in
  slice_from p i.

(** [dirname(p)]: the head before the last separator, without its
    trailing separators unless it consists of separators only. *)
Definition dirname (p : str) : str :=
  let i := rfind sep p + 1 in
  let head := slice_to p i in
  if negb (PyStr.eqb head []) && negb (PyStr.eqb head (repeat sep (length head)))
  then rstrip head sep
  else head.

(** [join(a, b)] with one component [b] *)
Definition join (a b : str) : str :=
  if startswith b sep then b
  else if PyStr.eqb a [] || endswith a sep then a ++ b
  else a ++ [sep] ++ b.

(** The [while filenameIndex < dotIndex] loop of [genericpath._splitext];
    [n] is [dotIndex - filenameIndex], the number of iterations left.
    [Some] is the [return] inside the loop, [None] is falling out of
    it. *)
Fixpoint splitext_loop (p : str) (filenameIndex : Z) (n : nat) (dotIndex : Z)
  : option (str * str) :=
  match n with
  | O => None
  | S n' =>
      if negb (PyStr.eqb (slice p filenameIndex (filenameIndex + 1)) [extsep])
      then Some (slice_to p dotIndex, slice_from p dotIndex)
      else splitext_loop p (filenameIndex + 1) n' dotIndex
  end.

(** [splitext(p)]; [posixpath] has no [altsep]. *)
Definition splitext (p : str) : str * str :=
  let sepIndex := rfind sep p in
  let dotIndex := rfind extsep p in
  let found :=
    if sepIndex <? dotIndex
    then splitext_loop p (sepIndex + 1) (Z.to_nat (dotIndex - (sepIndex + 1))) dotIndex
    else None in
  match found with
  | Some r => r
  | None => (p, slice_to p 0)
  end.

End posixpath.

(** ** [re]: patterns and [Pattern.match] *)

Module re.

(** The constructs [VALID_FN] is written with.  A [Group] is a named
    group [(?P<name>...)]: it matches what its body matches. *)
Inductive pattern : Type :=
  | Never
  | Empty
  | Chr (c : ascii)
  | Class (ranges : list (ascii * ascii))
  | Dot
  | Cat (r1 r2 : pattern)
  | Alt (r1 r2 : pattern)
  | Star (r : pattern)
  | Group (name : string) (r : pattern).

(** A literal run of characters. *)
Fixpoint Lit (s : str) : pattern :=
  match s with
  | [] => Empty
  | c :: s' => Cat (Chr c) (Lit s')
  end.

(** [r{n}] *)
Fixpoint Rep (n : nat) (r : pattern) : pattern :=
  match n with
  | O => Empty
  | S n' => Cat r (Rep n' r)
  end.

Definition in_range (c : ascii) (lohi : ascii * ascii) : bool :=
  (PyStr.code lohi.1 <=? PyStr.code c) && (PyStr.code c <=? PyStr.code lohi.2).

Definition in_class (ranges : list (ascii * ascii)) (c : ascii) : bool :=
  existsb (in_range c) ranges.

(** [.] without [DOTALL]: any character but a newline. *)
Definition dot_char (c : ascii) : bool := negb (Ascii.eqb c "010").

Fixpoint nullable (r : pattern) : bool :=
  match r with
  | Never => false
  | Empty => true
  | Chr _ | Class _ | Dot => false
  | Cat r1 r2 => nullable r1 && nullable r2
  | Alt r1 r2 => nullable r1 || nullable r2
  | Star _ => true
  | Group _ r => nullable r
  end.

(** What is left of [r] after reading [c]. *)
Fixpoint deriv (c : ascii) (r : pattern) : pattern :=
  match r with
  | Never | Empty => Never
  | Chr a => if Ascii.eqb a c then Empty else Never
  | Class ranges => if in_class ranges c then Empty else Never
  | Dot => if dot_char c then Empty else Never
  | Cat r1 r2 =>
      if nullable r1
      then Alt (Cat (deriv c r1) r2) (deriv c r2)
      else Cat (deriv c r1) r2
  | Alt r1 r2 => Alt (deriv c r1) (deriv c r2)
  | Star r1 => Cat (deriv c r1) (Star r1)
  | Group _ r1 => deriv c r1
  end.

(** [bool(r.match(s))]: does some prefix of [s] match [r]?  [match]
    is anchored at the start of [s] and not at its end. *)
Fixpoint match_ (r : pattern) (s : str) : bool :=
  nullable r ||
  match s with
  | [] => false
  | c :: s' => match_ (deriv c r) s'
  end.

(** The strings a pattern matches in full. *)
Inductive matches : pattern -> str -> Prop :=
  | m_empty : matches Empty []
  | m_chr c : matches (Chr c) [c]
  | m_class ranges c : in_class ranges c = true -> matches (Class ranges) [c]
  | m_dot c : dot_char c = true -> matches Dot [c]
  | m_cat r1 r2 s1 s2 : matches r1 s1 -> matches r2 s2 -> matches (Cat r1 r2) (s1 ++ s2)
  | m_alt_l r1 r2 s : matches r1 s -> matches (Alt r1 r2) s
  | m_alt_r r1 r2 s : matches r2 s -> matches (Alt r1 r2) s
  | m_star_nil r : matches (Star r) []
  | m_star_cons r s1 s2 : matches r s1 -> matches (Star r) s2 -> matches (Star r) (s1 ++ s2)
  | m_group name r s : matches r s -> matches (Group name r) s.

End re.

(** ** [hashlib.sha256] (FIPS 180-4) on 32-bit words held in [Z] *)

Module hashlib.

Definition wrap32 (x : Z) : Z := x mod 2 ^ 32.
Definition add32 (x y : Z) : Z := wrap32 (x + y).
Definition rotr (x n : Z) : Z := Z.lor (Z.shiftr x n) (wrap32 (Z.shiftl x (32 - n))).
Definition not32 (x : Z) : Z := Z.lxor x 0xffffffff.

Definition Ch (x y z : Z) : Z := Z.lxor (Z.land x y) (Z.land (not32 x) z).
Definition Maj (x y z : Z) : Z :=
  Z.lxor (Z.lxor (Z.land x y) (Z.land x z)) (Z.land y z).
Definition Sigma0 (x : Z) : Z := Z.lxor (Z.lxor (rotr x 2) (rotr x 13)) (rotr x 22).
Definition Sigma1 (x : Z) : Z := Z.lxor (Z.lxor (rotr x 6) (rotr x 11)) (rotr x 25).
Definition sigma0 (x : Z) : Z := Z.lxor (Z.lxor (rotr x 7) (rotr x 18)) (Z.shiftr x 3).
Definition sigma1 (x : Z) : Z := Z.lxor (Z.lxor (rotr x 17) (rotr x 19)) (Z.shiftr x 10).

(** The constants of the standard are fractional parts of roots of the
    first primes, on 32 bits: cube roots of the first 64 primes for the
    round constants, square roots of the first 8 primes for the initial
    hash value.  They are computed here from that definition. *)
Definition is_prime (n : Z) : bool :=
  (1 <? n) && forallb (fun d => negb (n mod d =? 0))
                      (map Z.of_nat (seq 2 (Z.to_nat n - 2))).

Definition primes (count : nat) : list Z :=
  take count (filter (fun n => is_prime n = true) (map Z.of_nat (seq 2 400))).

(** The largest [r] below [2 ^ bits] with [r ^ k <= n], found bit by
    bit from the top. *)
Fixpoint floor_root (k : Z) (bits : nat) (n r : Z) : Z :=
  match bits with
  | O => r
  | S b =>
      let r' := r + 2 ^ Z.of_nat b in
      floor_root k b n (if r' ^ k <=? n then r' else r)
  end.

(** The first 32 bits of the fractional part of the [k]-th root of [p]. *)
Definition root_fraction (k p : Z) : Z :=
  wrap32 (floor_root k 40 (p * 2 ^ (32 * k)) 0).

Definition K : list Z := Eval vm_compute in map (root_fraction 3) (primes 64).

(** The eight working variables, and the hash value, of the standard. *)
Record regs : Type := Regs { ra : Z; rb : Z; rc : Z; rd : Z; re : Z; rf : Z; rg : Z; rh : Z }.

Definition regs_of (l : list Z) : regs :=
  Regs (nth 0 l 0) (nth 1 l 0) (nth 2 l 0) (nth 3 l 0)
       (nth 4 l 0) (nth 5 l 0) (nth 6 l 0) (nth 7 l 0).

Definition H0 : regs := Eval vm_compute in regs_of (map (root_fraction 2) (primes 8)).

(** The message with its padding: a [0x80] byte, zero bytes up to 56
    modulo 64, and the bit length on eight bytes, big-endian. *)
Definition be_bytes (n : nat) (x : Z) : list Z :=
  map (fun i => Z.land (Z.shiftr x (8 * Z.of_nat i)) 0xff) (rev (seq 0 n)).

Definition pad (msg : list byte) : list Z :=
  let l := Z.of_nat (length msg) in
  let zeros := Z.to_nat ((55 - l) mod 64) in
  map (fun b => Z.of_N (Byte.to_N b)) msg ++ [0x80] ++ repeat 0 zeros ++ be_bytes 8 (8 * l).

Fixpoint words (bs : list Z) : list Z :=
  match bs with
  | b0 :: b1 :: b2 :: b3 :: rest =>
      Z.lor (Z.lor (Z.lor (Z.shiftl b0 24) (Z.shiftl b1 16)) (Z.shiftl b2 8)) b3
      :: words rest
  | _ => []
  end.

Fixpoint blocks (n : nat) (ws : list Z) : list (list Z) :=
  match n with
  | O => []
  | S n' => take 16 ws :: blocks n' (drop 16 ws)
  end.

(** The message schedule: [w] holds [W_0 .. W_(t-1)]; [n] more words
    are appended. *)
Fixpoint schedule (n : nat) (w : list Z) : list Z :=
  match n with
  | O => w
  | S n' =>
      let t := length w in
      let W i := nth (t - i) w 0 in
      schedule n' (w ++ [add32 (add32 (sigma1 (W 2%nat)) (W 7%nat))
                               (add32 (sigma0 (W 15%nat)) (W 16%nat))])
  end.

Definition round (s : regs) (kw : Z * Z) : regs :=
  let T1 := add32 (add32 (add32 (add32 (rh s) (Sigma1 (re s))) (Ch (re s) (rf s) (rg s))) kw.1) kw.2 in
  let T2 := add32 (Sigma0 (ra s)) (Maj (ra s) (rb s) (rc s)) in
  Regs (add32 T1 T2) (ra s) (rb s) (rc s) (add32 (rd s) T1) (re s) (rf s) (rg s).

Definition compress (h : regs) (block : list Z) : regs :=
  let s := fold_left round (combine K (schedule 48 block)) h in
  Regs (add32 (ra h) (ra s)) (add32 (rb h) (rb s)) (add32 (rc h) (rc s))
       (add32 (rd h) (rd s)) (add32 (re h) (re s)) (add32 (rf h) (rf s))
       (add32 (rg h) (rg s)) (add32 (rh h) (rh s)).

(** [hashlib.sha256(data)] *)
Definition sha256 (data : list byte) : regs :=
  let ws := words (pad data) in
  fold_left compress (blocks (length ws / 16) ws) H0.

Definition hexchar (n : Z) : ascii := nth (Z.to_nat n) (py "0123456789abcdef") "0"%char.

(** A 32-bit word as eight lower-case hexadecimal digits. *)
Definition hex32 (w : Z) : str :=
  map (fun i => hexchar (Z.land (Z.shiftr w (4 * Z.of_nat i)) 0xf)) (rev (seq 0 8)).

(** [h.hexdigest()] *)
Definition hexdigest (h : regs) : str :=
  hex32 (ra h) ++ hex32 (rb h) ++ hex32 (rc h) ++ hex32 (rd h)
  ++ hex32 (re h) ++ hex32 (rf h) ++ hex32 (rg h) ++ hex32 (rh h).

End hashlib.

Definition bytes_of (s : string) : list byte := list_byte_of_string s.

(** ** [datetime]: the proleptic Gregorian calendar in UTC *)

Module datetime.

Record t : Type := mk {
  year : Z; month : Z; day : Z;
  hour : Z; minute : Z; second : Z; microsecond : Z
}.

Definition _DAYS_IN_MONTH : list Z :=
  [-1; 31; 28; 31; 30; 31; 30; 31; 31; 30; 31; 30; 31].

Definition _DAYS_BEFORE_MONTH : list Z :=
  [-1; 0; 31; 59; 90; 120; 151; 181; 212; 243; 273; 304; 334].

Definition _DI400Y : Z := 146097.
Definition _DI100Y : Z := 36524.
Definition _DI4Y : Z := 1461.

(** [date.max.toordinal()], the last day of year 9999, and the ordinal
    of 1970-01-01. *)
Definition _MAXORDINAL : Z := 3652059.
Definition _EPOCH_ORDINAL : Z := 719163.

Definition table (l : list Z) (i : Z) : Z := nth (Z.to_nat i) l 0.

(** The second half of [_ord2ymd]: month and day of the [n]-th day
    (from 0) of a year.  [(n + 50) >> 5] is the month or one more. *)
Definition _month_day (leapyear : bool) (n : Z) : Z * Z :=
  let month := Z.shiftr (n + 50) 5 in
  let preceding :=
    table _DAYS_BEFORE_MONTH month + (if (2 <? month) && leapyear then 1 else 0) in
  let '(month, preceding) :=
    if n <? preceding
    then (month - 1,
          preceding - (table _DAYS_IN_MONTH (month - 1)
                       + (if (month - 1 =? 2) && leapyear then 1 else 0)))
    else (month, preceding) in
  (month, n - preceding + 1).

(** [_ord2ymd(n)]: the date of the [n]-th day, day 1 being
    0001-01-01. *)
Definition _ord2ymd (ordinal : Z) : Z * Z * Z :=
  let n := ordinal - 1 in
  let n400 := n / _DI400Y in
  let n := n mod _DI400Y in
  let year := n400 * 400 + 1 in
  let n100 := n / _DI100Y in
  let n := n mod _DI100Y in
  let n4 := n / _DI4Y in
  let n := n mod _DI4Y in
  let n1 := n / 365 in
  let n := n mod 365 in
  let year := year + (n100 * 100 + n4 * 4 + n1) in
  if (n1 =? 4) || (n100 =? 4) then (year - 1, 12, 31)
  else
    let leapyear := (n1 =? 3) && (negb (n4 =? 24) || (n100 =? 3)) in
    let '(month, day) := _month_day leapyear n in
    (year, month, day).

(** The time zones [pytz.timezone] is asked for here. *)
Inductive tzinfo : Type := UTC.

(** [pytz.timezone(name)] *)
Definition pytz_timezone (name : str) : result tzinfo :=
  if PyStr.eqb name (py "UTC") then Ok UTC else Raise UnknownTimeZoneError.

(** [datetime.fromtimestamp(t, tz=UTC)], with [t] given in whole
    microseconds since the epoch (the resolution [fromtimestamp]
    rounds its argument to).  A date outside the years 1..9999 is
    refused. *)
Definition fromtimestamp_utc (us : Z) : result t :=
  let secs := us / 1000000 in
  let frac := us mod 1000000 in
  let days := secs / 86400 in
  let rem := secs mod 86400 in
  let ordinal := days + _EPOCH_ORDINAL in
  if (ordinal <? 1) || (_MAXORDINAL <? ordinal) then Raise ValueError
  else
    let '(y, m, d) := _ord2ymd ordinal in
    Ok (mk y m d (rem / 3600) (rem mod 3600 / 60) (rem mod 60) frac).

(** [datetime.fromtimestamp(t, tz)] *)
Definition fromtimestamp (us : Z) (tz : tzinfo) : result t :=
  match tz with
  | UTC => fromtimestamp_utc us
  end.

Definition digit (n : Z) : ascii := PyStr.chr (48 + n mod 10).

(** [n] in decimal on [width] digits, padded with zeros. *)
Fixpoint decimal (width : nat) (n : Z) : str :=
  match width with
  | O => []
  | S w => decimal w (n / 10) ++ [digit n]
  end.

(** The directives [file_datetime] uses; [%Y] is the year on four
    digits as the library documents it.  Any other directive is
    copied as it stands. *)
Definition directive (d : ascii) (dt : t) : str :=
  if Ascii.eqb d "Y" then decimal 4 (year dt)
  else if Ascii.eqb d "m" then decimal 2 (month dt)
  else if Ascii.eqb d "d" then decimal 2 (day dt)
  else if Ascii.eqb d "H" then decimal 2 (hour dt)
  else if Ascii.eqb d "M" then decimal 2 (minute dt)
  else if Ascii.eqb d "S" then decimal 2 (second dt)
  else ["%"%char; d].

(** [dt.strftime(fmt)] *)
Fixpoint strftime (fmt : str) (dt : t) : str :=
  match fmt with
  | [] => []
  | c :: rest =>
      if Ascii.eqb c "%" then
        match rest with
        | d :: rest' => directive d dt ++ strftime rest' dt
        | [] => [c]
        end
      else c :: strftime rest dt
  end.

End datetime.

(** ** The file system: [os.path.exists], [stat], [open]/[read], [shutil.move] *)

Module os.

(** A regular file has its content, its modification time (in
    microseconds since the epoch) and whether this process may read it;
    a directory has its modification time. *)
Inductive node : Type :=
  | File (data : list byte) (st_mtime : Z) (readable : bool)
  | Dir (st_mtime : Z).

Abbreviation filesystem := (gmap str node).

Definition node_mtime (n : node) : Z :=
  match n with
  | File _ m _ => m
  | Dir m => m
  end.

(** [os.path.exists(p)] *)
Definition path_exists (fs : filesystem) (p : str) : bool :=
  match fs !! p with
  | Some _ => true
  | None => false
  end.

(** [pathlib.Path(p).stat().st_mtime] *)
Definition stat_st_mtime (fs : filesystem) (p : str) : result Z :=
  match fs !! p with
  | Some n => Ok (node_mtime n)
  | None => Raise FileNotFoundError
  end.

(** [with open(p, 'rb') as fh: fh.read()] *)
Definition read_bytes (fs : filesystem) (p : str) : result (list byte) :=
  match fs !! p with
  | Some (File data _ true) => Ok data
  | Some (File _ _ false) => Raise PermissionError
  | Some (Dir _) => Raise IsADirectoryError
  | None => Raise FileNotFoundError
  end.

(** [os.path.isdir(p)] *)
Definition path_isdir (fs : filesystem) (p : str) : bool :=
  match fs !! p with
  | Some (Dir _) => true
  | _ => false
  end.

(** [os.path.isfile(p)] *)
Definition path_isfile (fs : filesystem) (p : str) : bool :=
  match fs !! p with
  | Some (File _ _ _) => true
  | _ => false
  end.

(** [shutil.move(src, dst)] when nothing exists at [dst]: a rename. *)
Definition shutil_move (fs : filesystem) (src dst : str) : result filesystem :=
  match fs !! src with
  | Some n => Ok (<[dst := n]> (delete src fs))
  | None => Raise FileNotFoundError
  end.

End os.

(** ** [class RenamerHandler] *)

Module RenamerHandler.
Import PyStr.

(** Bytes to read to calculate our hash.  (No method uses it.) *)
Definition READ_BYTES_FOR_HASH : Z := 1048576.

(** File name template for constructing new filename *)
Definition CONSTRUCT_FN : str := py "Screenshot-{datetime}-{checksum}{ext}".

(** Timezone string to use for file date. *)
Definition USE_DATETIME_TIMEZONE : str := py "UTC".

(** Extensions to operate on. *)
Definition VALID_EXTS : list str := [py ".png"; py ".jpg"; py ".jpeg"].

(** Regular expression to check whether file name pattern matches:
    [Screenshot-(?P<datetime>[0-9]{8}-[0-9]{6})-(?P<checksum>[0-9A-Fa-f]{8})\..*] *)
Definition VALID_FN : re.pattern :=
  let digit := re.Class [("0", "9")]%char in
  let hex := re.Class [("0", "9"); ("A", "F"); ("a", "f")]%char in
  re.Cat (re.Lit (py "Screenshot-"))
 (re.Cat (re.Group "datetime"
            (re.Cat (re.Rep 8 digit) (re.Cat (re.Chr "-") (re.Rep 6 digit))))
 (re.Cat (re.Chr "-")
 (re.Cat (re.Group "checksum" (re.Rep 8 hex))
 (re.Cat (re.Chr ".")
         (re.Star re.Dot))))).

Record FileSystemEvent : Type := Event { src_path : str; is_directory : bool }.

(** [return not bool(cls.VALID_FN.match(os.path.basename(path)))] *)
Definition needs_rename (path : str) : bool :=
  negb (re.match_ VALID_FN (posixpath.basename path)).

Definition checksum_partial (fs : os.filesystem) (path : str) : result str :=
  let* data := os.read_bytes fs path in
  let checksum := hashlib.hexdigest (hashlib.sha256 data) in
  let partial := slice_from checksum (-8) in
  Ok partial.

Definition file_datetime (fs : os.filesystem) (path : str) : result str :=
  let* mod_time := os.stat_st_mtime fs path in
  let* tz := datetime.pytz_timezone USE_DATETIME_TIMEZONE in
  let* datetime_obj := datetime.fromtimestamp mod_time tz in
  let return_datetime := datetime.strftime (py "%Y%m%d-%H%M%S") datetime_obj in
  Ok return_datetime.

Definition new_filename (fs : os.filesystem) (path : str) : result str :=
  let* file_date := file_datetime fs path in
  let* file_cksum := checksum_partial fs path in
  let ext := (posixpath.splitext (posixpath.basename path)).2 in
  format CONSTRUCT_FN
    [(py "datetime", file_date); (py "checksum", file_cksum); (py "ext", ext)].

(** The result is the file system after the call and the returned
    boolean. *)
Definition rename (fs : os.filesystem) (path new_filename : str)
  : result (os.filesystem * bool) :=
  let new_path := posixpath.join (posixpath.dirname path) new_filename in
  if os.path_exists fs new_path then Ok (fs, false)
  else
    let* fs' := (if os.path_exists fs path
                 then os.shutil_move fs path new_path
                 else Ok fs) in
    Ok (fs', true).

(** [fs] is the file system as it is once the one-second sleep is
    over: the three filters before the sleep read the event only. *)
Definition handle_event (fs : os.filesystem) (event : FileSystemEvent)
  : result (os.filesystem * bool) :=
  let path := src_path event in
  if is_directory event then Ok (fs, false)
  else
    let file_ext :=
      strip (lower (posixpath.splitext (posixpath.basename path)).2) in
    if negb (bool_decide (file_ext ∈ VALID_EXTS)) then Ok (fs, false)
    else if negb (needs_rename path) then Ok (fs, false)
    else
      let* new_fn := new_filename fs path in
      rename fs path new_fn.

Definition on_created (fs : os.filesystem) (event : FileSystemEvent)
  : result (os.filesystem * bool) :=
  handle_event fs event.

End RenamerHandler.

(** ** [handle_monitoring]: the watches it registers *)

Module Monitoring.

(** The [for cur_path in paths] loop of [handle_monitoring], as the
    calls [observer.schedule(event_handler, cur_path, recursive=use_recursive)]
    it makes, in order: a directory is watched with the flag given, a
    file without recursion, anything else is skipped ([continue]).  The
    observer's own thread and the wait loop that follow are not
    modelled. *)
Fixpoint scheduled (fs : os.filesystem) (paths : list str) (recursive : bool)
  : list (str * bool) :=
  match paths with
  | [] => []
  | cur_path :: rest =>
      if os.path_isdir fs cur_path
      then (cur_path, recursive) :: scheduled fs rest recursive
      else if os.path_isfile fs cur_path
      then (cur_path, false) :: scheduled fs rest recursive
      else scheduled fs rest recursive
  end.

End Monitoring.

(** ** The canonical name, as the specification words it *)

Module Spec.
Import PyStr.

Definition is_digit (c : ascii) : bool := (48 <=? code c) && (code c <=? 57).

Definition is_hex_digit (c : ascii) : bool :=
  is_digit c
  || ((65 <=? code c) && (code c <=? 70))
  || ((97 <=? code c) && (code c <=? 102)).

(** Prefix [Screenshot-], 8-digit date, literal [-], 6-digit time,
    literal [-], 8 hex-digit checksum, literal [.], any extension. *)
Definition canonical_name (b : str) : Prop :=
  exists date time checksum ext : str,
    b = py "Screenshot-" ++ date ++ py "-" ++ time ++ py "-" ++ checksum
        ++ py "." ++ ext
    /\ length date = 8%nat /\ forallb is_digit date = true
    /\ length time = 6%nat /\ forallb is_digit time = true
    /\ length checksum = 8%nat /\ forallb is_hex_digit checksum = true.

(** The last [n] characters of [s] (all of [s] when it is shorter). *)
Definition last_chars (n : nat) (s : str) : str := rev (take n (rev s)).

(** The number a run of decimal digits writes. *)
Definition number (s : str) : Z :=
  fold_left (fun acc c => 10 * acc + (code c - 48)) s 0.

End Spec.

(** ** The Gregorian calendar, from its rules

  A year is a leap year when it is a multiple of 4 and not of 100, or
  a multiple of 400.  Days are counted from 0001-01-01, which is day 1;
  the epoch is 1970-01-01T00:00:00Z and a UTC day has 86400 seconds. *)

Module Calendar.

Definition is_leap (y : Z) : bool :=
  ((y mod 4 =? 0) && negb (y mod 100 =? 0)) || (y mod 400 =? 0).

Definition days_in_year (y : Z) : Z := if is_leap y then 366 else 365.

Definition days_in_month (y m : Z) : Z :=
  if m =? 2 then (if is_leap y then 29 else 28)
  else if (m =? 4) || (m =? 6) || (m =? 9) || (m =? 11) then 30
  else 31.

(** The days of the years [1 .. n]. *)
Fixpoint days_in_years (n : nat) : Z :=
  match n with
  | O => 0
  | S k => days_in_years k + days_in_year (Z.of_nat (S k))
  end.

(** The days of the months [1 .. n] of year [y]. *)
Fixpoint days_in_months (y : Z) (n : nat) : Z :=
  match n with
  | O => 0
  | S k => days_in_months y k + days_in_month y (Z.of_nat (S k))
  end.

Definition ordinal (y m d : Z) : Z :=
  days_in_years (Z.to_nat (y - 1)) + days_in_months y (Z.to_nat (m - 1)) + d.

(** Seconds from the epoch to the given UTC date and time. *)
Definition epoch_seconds (y m d H M S : Z) : Z :=
  (ordinal y m d - ordinal 1970 1 1) * 86400 + H * 3600 + M * 60 + S.

Definition valid_date (y m d : Z) : Prop :=
  1 <= y <= 9999 /\ 1 <= m <= 12 /\ 1 <= d <= days_in_month y m.

Definition valid_time (H M S : Z) : Prop :=
  0 <= H < 24 /\ 0 <= M < 60 /\ 0 <= S < 60.

(** The timestamps [datetime] can represent, in seconds:
    0001-01-01T00:00:00Z to 9999-12-31T23:59:59Z. *)
Definition min_seconds : Z := -62135596800.
Definition max_seconds : Z := 253402300799.

(** What [_month_day] owes the calendar on day [n] of a year that is
    leap or not: a month, a day of that month, and the right count. *)
Definition month_day_ok (leap : bool) (n : Z) : bool :=
  let y := if leap then 4 else 1 in
  let '(m, d) := datetime._month_day leap n in
  (1 <=? m) && (m <=? 12) && (1 <=? d) && (d <=? days_in_month y m)
  && (days_in_months y (Z.to_nat (m - 1)) + d =? n + 1).

(** The layout of the timestamp: four, two and two digits, a dash, and
    two, two and two digits, which are the fields of a valid UTC date
    and time denoting the second of the modification time. *)
Definition timestamp_of (secs : Z) (ts : str) : Prop :=
  exists Y Mo D H Mi S : str,
    ts = Y ++ Mo ++ D ++ py "-" ++ H ++ Mi ++ S
    /\ (length Y = 4 /\ length Mo = 2 /\ length D = 2
        /\ length H = 2 /\ length Mi = 2 /\ length S = 2)%nat
    /\ forallb Spec.is_digit (Y ++ Mo ++ D ++ H ++ Mi ++ S) = true
    /\ Calendar.valid_date (Spec.number Y) (Spec.number Mo) (Spec.number D)
    /\ Calendar.valid_time (Spec.number H) (Spec.number Mi) (Spec.number S)
    /\ Calendar.epoch_seconds (Spec.number Y) (Spec.number Mo) (Spec.number D)
         (Spec.number H) (Spec.number Mi) (Spec.number S) = secs.

End Calendar.

(** ** Files and events used as examples *)

Module Examples.
Import RenamerHandler.

(** Modified on 2024-03-05T14:07:09Z; the digest of its content ends
    in [f20015ad]. *)
Definition screenshot : os.node :=
  os.File (bytes_of "abc") 1709647629000000 true.

Definition shot : str := py "/tmp/shot.png".
Definition renamed : str := py "Screenshot-20240305-140709-f20015ad.png".
Definition renamed_path : str := py "/tmp/Screenshot-20240305-140709-f20015ad.png".

Definition fs_shot : os.filesystem := {[ shot := screenshot ]}.
Definition fs_both : os.filesystem :=
  <[ renamed_path := os.File (bytes_of "") 0 true ]> fs_shot.

Definition partial_download : str :=
  py "Screenshot-20240101-123456-deadbeef.png.partial".

(** An upper-case extension; modified on 2023-12-01T08:30:00Z. *)
Definition img : str := py "/tmp/IMG_0001.PNG".
Definition fs_img : os.filesystem :=
  {[ img := os.File (bytes_of "abc") 1701419400000000 true ]}.

(** The same file, which this process may not read. *)
Definition fs_locked : os.filesystem :=
  {[ shot := os.File (bytes_of "abc") 1709647629000000 false ]}.

(** An extension with a trailing space. *)
Definition shot_space : str := py "/tmp/shot.png ".
Definition renamed_space : str := py "/tmp/Screenshot-20240305-140709-f20015ad.png ".
Definition fs_shot_space : os.filesystem := {[ shot_space := screenshot ]}.
Definition fs_renamed_space : os.filesystem := {[ renamed_space := screenshot ]}.

Definition animation : str := py "/tmp/anim.gif".
Definition folder : str := py "/tmp/new folder.png".



(** A hidden file whose name is an image extension, and a directory
    whose name is canonical. *)
Definition hidden : str := py "/tmp/.png".
Definition canonical_dir : str := py "/tmp/Screenshot-20240101-123456-deadbeef.d".

(** A watched directory, a watched file and a path that does not
    exist. *)
Definition tmp : str := py "/tmp".
Definition nowhere : str := py "/nowhere".
Definition fs_watch : os.filesystem := <[ tmp := os.Dir 0 ]> fs_shot.

End Examples.

Import RenamerHandler.

(** * Facts about the library models *)

(** ** Patterns: the matcher decides the prefix language *)

Section PatternFacts.
Import re.

Lemma nullable_matches r : nullable r = true <-> matches r [].
Proof.
  split.
  - induction r; simpl; intros H; try discriminate.
    + constructor.
    + apply andb_true_iff in H as [H1 H2].
      change (@nil ascii) with (@nil ascii ++ []). constructor; auto.
    + apply orb_true_iff in H as [H|H]; [apply m_alt_l | apply m_alt_r]; auto.
    + constructor.
    + constructor; auto.
  - intros H. remember [] as s eqn:Hs.
    induction H; subst; simpl; try discriminate; auto.
    + apply app_eq_nil in Hs as [-> ->]. rewrite IHmatches1, IHmatches2; auto.
    + rewrite IHmatches; auto.
    + rewrite IHmatches; auto using orb_true_r.
Qed.

Lemma matches_cat r1 r2 s :
  matches (Cat r1 r2) s <-> exists s1 s2, s = s1 ++ s2 /\ matches r1 s1 /\ matches r2 s2.
Proof.
  split.
  - intros H; inversion H; subst; eauto.
  - intros (s1 & s2 & -> & H1 & H2). constructor; auto.
Qed.

Lemma matches_alt r1 r2 s :
  matches (Alt r1 r2) s <-> matches r1 s \/ matches r2 s.
Proof.
  split.
  - intros H; inversion H; subst; auto.
  - intros [H|H]; [apply m_alt_l | apply m_alt_r]; auto.
Qed.

Lemma matches_chr c s : matches (Chr c) s <-> s = [c].
Proof. split; [intros H; inversion H; auto | intros ->; constructor]. Qed.

Lemma matches_group name r s : matches (Group name r) s <-> matches r s.
Proof. split; [intros H; inversion H; auto | intros H; constructor; auto]. Qed.

Lemma deriv_sound c r : forall s, matches (deriv c r) s -> matches r (c :: s).
Proof.
  induction r; simpl; intros s H.
  - inversion H.
  - inversion H.
  - destruct (Ascii.eqb c0 c) eqn:E; inversion H; subst.
    apply Ascii.eqb_eq in E as ->. constructor.
  - destruct (in_class ranges c) eqn:E; inversion H; subst. constructor; auto.
  - destruct (dot_char c) eqn:E; inversion H; subst. constructor; auto.
  - assert (Hcat : forall u, matches (Cat (deriv c r1) r2) u -> matches (Cat r1 r2) (c :: u)).
    { intros u (s1 & s2 & -> & H1 & H2)%matches_cat.
      change (matches (Cat r1 r2) ((c :: s1) ++ s2)). constructor; auto. }
    destruct (nullable r1) eqn:E; auto.
    apply matches_alt in H as [H|H]; auto.
    change (matches (Cat r1 r2) ([] ++ c :: s)).
    constructor; auto. apply nullable_matches; auto.
  - apply matches_alt in H as [H|H]; [apply m_alt_l | apply m_alt_r]; auto.
  - apply matches_cat in H as (s1 & s2 & -> & H1 & H2).
    change (matches (Star r) ((c :: s1) ++ s2)). constructor; auto.
  - constructor; auto.
Qed.

Lemma deriv_complete c r cs :
  matches r cs -> forall u, cs = c :: u -> matches (deriv c r) u.
Proof.
  intros H. induction H; intros u Hu; simpl; try discriminate.
  - injection Hu as -> <-. rewrite Ascii.eqb_refl. constructor.
  - injection Hu as -> <-. rewrite H. constructor.
  - injection Hu as -> <-. rewrite H. constructor.
  - destruct s1 as [|x s1]; simpl in Hu.
    + subst s2. assert (nullable r1 = true) as -> by (apply nullable_matches; auto).
      apply m_alt_r. auto.
    + injection Hu as -> <-.
      destruct (nullable r1); [apply m_alt_l|]; constructor; auto.
  - apply m_alt_l; auto.
  - apply m_alt_r; auto.
  - destruct s1 as [|x s1]; simpl in Hu.
    + apply IHmatches2 in Hu. exact Hu.
    + injection Hu as -> <-. constructor; auto.
  - auto.
Qed.

Lemma deriv_matches c r s : matches (deriv c r) s <-> matches r (c :: s).
Proof. split; [apply deriv_sound | intros H; eapply deriv_complete; eauto]. Qed.

(** [match_] succeeds exactly when some prefix of the string matches
    the pattern in full. *)
Lemma match_prefix r s :
  match_ r s = true <-> exists s1 s2, s = s1 ++ s2 /\ matches r s1.
Proof.
  revert r. induction s as [|c s IH]; intros r; simpl.
  - rewrite orb_false_r, nullable_matches. split.
    + intros H. exists [], []. auto.
    + intros (s1 & s2 & Hs & H). symmetry in Hs.
      apply app_eq_nil in Hs as [-> ->]. auto.
  - rewrite orb_true_iff, IH, nullable_matches. split.
    + intros [H | (s1 & s2 & -> & H)].
      * exists [], (c :: s). auto.
      * exists (c :: s1), s2. split; auto. apply deriv_matches; auto.
    + intros (s1 & s2 & Hs & H). destruct s1 as [|x s1]; simpl in Hs.
      * left; auto.
      * injection Hs as <- ->. right. exists s1, s2. split; auto.
        apply deriv_matches; auto.
Qed.

Lemma matches_lit l s : matches (Lit l) s <-> s = l.
Proof.
  revert s. induction l as [|c l IH]; intros s; simpl.
  - split; [intros H; inversion H; auto | intros ->; constructor].
  - rewrite matches_cat. split.
    + intros (s1 & s2 & -> & H1 & H2). apply matches_chr in H1 as ->.
      apply IH in H2 as ->. reflexivity.
    + intros ->. exists [c], l. repeat split; [constructor | apply IH; auto].
Qed.

Lemma matches_rep_class n ranges s :
  matches (Rep n (Class ranges)) s
  <-> length s = n /\ forallb (in_class ranges) s = true.
Proof.
  revert s. induction n as [|n IH]; intros s; simpl.
  - split.
    + intros H; inversion H; auto.
    + intros [H _]. destruct s; [constructor | discriminate].
  - rewrite matches_cat. split.
    + intros (s1 & s2 & -> & H1 & H2). inversion H1; subst.
      apply IH in H2 as [H2 H3]. simpl. rewrite H2, H0, H3. auto.
    + intros [Hl Hf]. destruct s as [|c s]; [discriminate|].
      simpl in Hl, Hf. apply andb_true_iff in Hf as [Hc Hf].
      exists [c], s. repeat split; [constructor; auto | apply IH; auto].
Qed.

End PatternFacts.

(** ** [VALID_FN] matches the canonical names *)

Section ValidFn.
Import re.

Lemma in_class_digit c : in_class [("0", "9")]%char c = Spec.is_digit c.
Proof. unfold in_class, in_range, Spec.is_digit. simpl. apply orb_false_r. Qed.

Lemma in_class_hex c :
  in_class [("0", "9"); ("A", "F"); ("a", "f")]%char c = Spec.is_hex_digit c.
Proof.
  unfold in_class, in_range, Spec.is_hex_digit, Spec.is_digit. simpl.
  rewrite orb_false_r, orb_assoc. reflexivity.
Qed.

Lemma forallb_digit s :
  forallb (in_class [("0", "9")]%char) s = forallb Spec.is_digit s.
Proof. induction s as [|c s IH]; cbn [forallb]; rewrite ?in_class_digit, ?IH; reflexivity. Qed.

Lemma forallb_hex s :
  forallb (in_class [("0", "9"); ("A", "F"); ("a", "f")]%char) s
  = forallb Spec.is_hex_digit s.
Proof. induction s as [|c s IH]; cbn [forallb]; rewrite ?in_class_hex, ?IH; reflexivity. Qed.

(** The strings [VALID_FN] matches in full: a canonical stem, then a
    dot, then characters other than a newline. *)
Lemma VALID_FN_matches s :
  matches VALID_FN s <->
  exists date time checksum tail : str,
    s = py "Screenshot-" ++ date ++ py "-" ++ time ++ py "-" ++ checksum
        ++ py "." ++ tail
    /\ length date = 8%nat /\ forallb Spec.is_digit date = true
    /\ length time = 6%nat /\ forallb Spec.is_digit time = true
    /\ length checksum = 8%nat /\ forallb Spec.is_hex_digit checksum = true
    /\ matches (Star Dot) tail.
Proof.
  unfold VALID_FN. split.
  - intros (p & u1 & -> & Hp & H)%matches_cat.
    apply matches_lit in Hp as ->.
    apply matches_cat in H as (dt & u2 & -> & Hdt & H).
    apply matches_group, matches_cat in Hdt as (d & u3 & -> & Hd & Hdt).
    apply matches_cat in Hdt as (m1 & t & -> & Hm1 & Ht).
    apply matches_chr in Hm1 as ->.
    apply matches_cat in H as (m2 & u4 & -> & Hm2 & H).
    apply matches_chr in Hm2 as ->.
    apply matches_cat in H as (h & u5 & -> & Hh & H).
    apply matches_group in Hh.
    apply matches_cat in H as (dot & tail & -> & Hdot & Htail).
    apply matches_chr in Hdot as ->.
    apply matches_rep_class in Hd as [Hd1 Hd2].
    apply matches_rep_class in Ht as [Ht1 Ht2].
    apply matches_rep_class in Hh as [Hh1 Hh2].
    rewrite forallb_digit in Hd2, Ht2. rewrite forallb_hex in Hh2.
    exists d, t, h, tail. repeat split; auto.
    rewrite <- !app_assoc. reflexivity.
  - intros (d & t & h & tail & -> & Hd1 & Hd2 & Ht1 & Ht2 & Hh1 & Hh2 & Htail).
    apply matches_cat. exists (py "Screenshot-"), (d ++ py "-" ++ t ++ py "-" ++ h ++ py "." ++ tail).
    split; [reflexivity|]. split; [apply matches_lit; reflexivity|].
    apply matches_cat. exists (d ++ py "-" ++ t), (py "-" ++ h ++ py "." ++ tail).
    split; [rewrite <- !app_assoc; reflexivity|]. split.
    + apply matches_group, matches_cat. exists d, (py "-" ++ t).
      split; [reflexivity|]. split.
      * apply matches_rep_class. rewrite forallb_digit. auto.
      * apply matches_cat. exists (py "-"), t. split; [reflexivity|].
        split; [apply matches_chr; reflexivity|].
        apply matches_rep_class. rewrite forallb_digit. auto.
    + apply matches_cat. exists (py "-"), (h ++ py "." ++ tail).
      split; [reflexivity|]. split; [apply matches_chr; reflexivity|].
      apply matches_cat. exists h, (py "." ++ tail).
      split; [reflexivity|]. split.
      * apply matches_group, matches_rep_class. rewrite forallb_hex. auto.
      * apply matches_cat. exists (py "."), tail. split; [reflexivity|].
        split; [apply matches_chr; reflexivity | auto].
Qed.

(** [VALID_FN.match] accepts exactly the canonical names. *)
Lemma VALID_FN_match b : match_ VALID_FN b = true <-> Spec.canonical_name b.
Proof.
  rewrite match_prefix. unfold Spec.canonical_name. split.
  - intros (s1 & s2 & -> & H). apply VALID_FN_matches in H
      as (d & t & h & tail & -> & Hd1 & Hd2 & Ht1 & Ht2 & Hh1 & Hh2 & _).
    exists d, t, h, (tail ++ s2). repeat split; auto.
    rewrite <- !app_assoc. reflexivity.
  - intros (d & t & h & ext & -> & Hd1 & Hd2 & Ht1 & Ht2 & Hh1 & Hh2).
    exists (py "Screenshot-" ++ d ++ py "-" ++ t ++ py "-" ++ h ++ py "." ++ []), ext.
    split; [rewrite <- !app_assoc; reflexivity|].
    apply VALID_FN_matches. exists d, t, h, [].
    repeat split; auto. constructor.
Qed.

End ValidFn.

(** ** Strings and paths *)

Section PathFacts.
Import PyStr posixpath.

Lemma rfind_lower c s : -1 <= rfind c s.
Proof.
  induction s as [|x s IH]; simpl; [lia|].
  destruct (0 <=? rfind c s) eqn:E; [apply Z.leb_le in E; lia|].
  destruct (Ascii.eqb x c); lia.
Qed.

Lemma rfind_absent c s : rfind c s < 0 <-> c ∉ s.
Proof.
  induction s as [|x s IH]; simpl.
  - split; [intros _; apply not_elem_of_nil | lia].
  - rewrite not_elem_of_cons, <- IH.
    destruct (0 <=? rfind c s) eqn:E.
    + apply Z.leb_le in E. lia.
    + apply Z.leb_gt in E. destruct (Ascii.eqb x c) eqn:Ex.
      * apply Ascii.eqb_eq in Ex. split; [lia | intros [H _]; congruence].
      * apply Ascii.eqb_neq in Ex. split; [split; [congruence | lia] | lia].
Qed.

(** A found index is the position of the last occurrence. *)
Lemma rfind_found c s :
  0 <= rfind c s ->
  exists pre post, s = pre ++ c :: post /\ (c ∉ post)
                   /\ rfind c s = Z.of_nat (length pre).
Proof.
  induction s as [|x s IH]; simpl; [lia|].
  destruct (0 <=? rfind c s) eqn:E.
  - apply Z.leb_le in E. destruct (IH E) as (pre & post & Hs & Hpost & Hr).
    intros _. exists (x :: pre), post. subst s. repeat split; auto.
    rewrite Hr. simpl. lia.
  - apply Z.leb_gt in E. destruct (Ascii.eqb x c) eqn:Ex; [|lia].
    apply Ascii.eqb_eq in Ex as ->. intros _.
    exists [], s. repeat split; auto. apply rfind_absent; auto.
Qed.

Lemma bound_nonneg (n : nat) (len : nat) : bound (Z.of_nat n) len = n.
Proof.
  unfold bound. destruct (Z.of_nat n <? 0) eqn:E; [apply Z.ltb_lt in E; lia|].
  apply Nat2Z.id.
Qed.

Lemma slice_from_app (pre post : str) :
  slice_from (pre ++ post) (Z.of_nat (length pre)) = post.
Proof. unfold slice_from. rewrite bound_nonneg. apply drop_app_length. Qed.

Lemma slice_to_app (pre post : str) :
  slice_to (pre ++ post) (Z.of_nat (length pre)) = pre.
Proof. unfold slice_to. rewrite bound_nonneg. apply take_app_length. Qed.

(** The base name is what follows the last separator. *)
Lemma basename_split p :
  exists pre, p = pre ++ basename p /\ (sep ∉ basename p)
              /\ (pre = [] \/ exists d, pre = d ++ [sep]).
Proof.
  unfold basename. destruct (Z.le_gt_cases 0 (rfind sep p)) as [H|H].
  - destruct (rfind_found _ _ H) as (pre & post & Hp & Hpost & Hr).
    exists (pre ++ [sep]). rewrite Hr.
    assert (Hb : slice_from p (Z.of_nat (length pre) + 1) = post).
    { replace (Z.of_nat (length pre) + 1) with (Z.of_nat (length (pre ++ [sep])))
        by (rewrite length_app; simpl; lia).
      rewrite Hp. replace (pre ++ sep :: post) with ((pre ++ [sep]) ++ post)
        by (rewrite <- app_assoc; reflexivity).
      apply slice_from_app. }
    rewrite Hb. split; [rewrite <- app_assoc; exact Hp|]. split; eauto.
  - assert (rfind sep p = -1) as -> by (pose proof (rfind_lower sep p); lia).
    exists []. simpl. unfold slice_from. simpl. rewrite drop_0.
    repeat split; auto. apply rfind_absent; lia.
Qed.

Lemma basename_no_sep p : sep ∉ basename p.
Proof. destruct (basename_split p) as (pre & _ & H & _). exact H. Qed.

Lemma basename_id s : sep ∉ s -> basename s = s.
Proof.
  intros H. apply rfind_absent in H. unfold basename.
  assert (rfind sep s = -1) as -> by (pose proof (rfind_lower sep s); lia).
  unfold slice_from. simpl. apply drop_0.
Qed.

Lemma splitext_loop_spec p dotIndex : forall n k,
  (k + n <= length p)%nat ->
  splitext_loop p (Z.of_nat k) n dotIndex
  = if forallb (Ascii.eqb extsep) (take n (drop k p)) then None
    else Some (slice_to p dotIndex, slice_from p dotIndex).
Proof.
  induction n as [|n IH]; intros k Hk; cbn [splitext_loop].
  - reflexivity.
  - destruct (drop k p) as [|x rest] eqn:Hd.
    { apply (f_equal length) in Hd. rewrite length_drop in Hd. simpl in Hd. lia. }
    assert (Hrest : drop (S k) p = rest).
    { replace (S k) with (k + 1)%nat by lia. rewrite <- drop_drop, Hd. reflexivity. }
    assert (Hs : slice p (Z.of_nat k) (Z.of_nat k + 1) = [x]).
    { unfold slice. replace (Z.of_nat k + 1) with (Z.of_nat (S k)) by lia.
      rewrite !bound_nonneg, Hd. replace (S k - k)%nat with 1%nat by lia.
      reflexivity. }
    rewrite Hs. replace (Z.of_nat k + 1) with (Z.of_nat (S k)) by lia.
    rewrite IH by lia. rewrite Hrest.
    change (take (S n) (x :: rest)) with (x :: take n rest).
    cbn [forallb]. unfold PyStr.eqb.
    destruct (Ascii.eqb extsep x) eqn:Ex.
    + apply Ascii.eqb_eq in Ex as <-. rewrite bool_decide_eq_true_2 by reflexivity.
      reflexivity.
    + apply Ascii.eqb_neq in Ex. rewrite bool_decide_eq_false_2 by congruence.
      reflexivity.
Qed.

Lemma forallb_dots (s : str) :
  forallb (Ascii.eqb extsep) s = true -> s = repeat extsep (length s).
Proof.
  induction s as [|x s IH]; simpl; [reflexivity|].
  intros [Hx Hs]%andb_true_iff. apply Ascii.eqb_eq in Hx as <-.
  f_equal. auto.
Qed.

Lemma forallb_not_dots (s : str) :
  forallb (Ascii.eqb extsep) s = false -> exists c, (c ∈ s) /\ c <> extsep.
Proof.
  induction s as [|x s IH]; simpl; [discriminate|].
  destruct (Ascii.eqb extsep x) eqn:Ex; simpl.
  - intros H. destruct (IH H) as (c & Hc & Hne). exists c. split; auto.
    apply elem_of_cons; auto.
  - intros _. apply Ascii.eqb_neq in Ex. exists x. split; [apply elem_of_cons; auto|congruence].
Qed.

(** [splitext] on a name without separators: the extension starts at
    the last dot, unless that dot has only dots before it. *)
Lemma splitext_spec s :
  sep ∉ s ->
  exists root ext,
    splitext s = (root, ext) /\ s = root ++ ext /\
    ((ext = [] /\ ((extsep ∉ s) \/
                   exists k rest, s = repeat extsep (S k) ++ rest /\ (extsep ∉ rest)))
     \/ (exists e, ext = extsep :: e /\ (extsep ∉ e)
                   /\ exists c, (c ∈ root) /\ c <> extsep)).
Proof.
  intros Hsep. unfold splitext. apply rfind_absent in Hsep.
  assert (rfind sep s = -1) as -> by (pose proof (rfind_lower sep s); lia).
  destruct (Z.le_gt_cases 0 (rfind extsep s)) as [H|H].
  - destruct (rfind_found _ _ H) as (pre & post & Hs & Hpost & Hr).
    assert ((-1 <? rfind extsep s) = true) as -> by (apply Z.ltb_lt; lia).
    rewrite Hr. change (-1 + 1) with (Z.of_nat 0).
    replace (Z.to_nat (Z.of_nat (length pre) - Z.of_nat 0)) with (length pre) by lia.
    rewrite splitext_loop_spec by (rewrite Hs, length_app; simpl; lia).
    rewrite drop_0.
    assert (Htake : take (length pre) s = pre) by (rewrite Hs; apply take_app_length).
    assert (Hto : slice_to s (Z.of_nat (length pre)) = pre)
      by (rewrite Hs; apply slice_to_app).
    assert (Hfrom : slice_from s (Z.of_nat (length pre)) = extsep :: post)
      by (rewrite Hs; apply slice_from_app).
    rewrite Htake, Hto, Hfrom.
    destruct (forallb (Ascii.eqb extsep) pre) eqn:Hdots.
    + exists s, []. unfold slice_to. simpl. rewrite take_0, app_nil_r.
      repeat split; auto. left. split; auto. right.
      exists (length pre), post. split; auto.
      transitivity (repeat extsep (length pre) ++ extsep :: post).
      * rewrite <- (forallb_dots _ Hdots). exact Hs.
      * clear. induction (length pre) as [|n IH]; simpl; [reflexivity|].
        f_equal. exact IH.
    + exists pre, (extsep :: post).
      repeat split; auto. right. exists post. repeat split; auto.
      apply forallb_not_dots; auto.
  - assert (rfind extsep s = -1) as -> by (pose proof (rfind_lower extsep s); lia).
    simpl. exists s, []. unfold slice_to. simpl. rewrite take_0, app_nil_r.
    repeat split; auto. left. split; auto. left. apply rfind_absent. lia.
Qed.

End PathFacts.

(** ** The hexadecimal digest *)

Section DigestFacts.
Import PyStr hashlib.

Lemma hexchar_hex v : 0 <= v < 16 -> Spec.is_hex_digit (hexchar v) = true.
Proof.
  intros H.
  assert (v = 0 \/ v = 1 \/ v = 2 \/ v = 3 \/ v = 4 \/ v = 5 \/ v = 6 \/ v = 7
          \/ v = 8 \/ v = 9 \/ v = 10 \/ v = 11 \/ v = 12 \/ v = 13 \/ v = 14
          \/ v = 15) as Hv by lia.
  repeat (destruct Hv as [-> | Hv]; [reflexivity|]). subst v. reflexivity.
Qed.

Lemma nibble_range w i : 0 <= Z.land (Z.shiftr w i) 0xf < 16.
Proof.
  change 0xf with (Z.ones 4). rewrite Z.land_ones by lia.
  apply Z.mod_pos_bound. reflexivity.
Qed.

Lemma hex32_length w : length (hex32 w) = 8%nat.
Proof. reflexivity. Qed.

Lemma hex32_hex w : forallb Spec.is_hex_digit (hex32 w) = true.
Proof.
  unfold hex32. apply forallb_forall. intros c Hc.
  apply in_map_iff in Hc as (i & <- & _). apply hexchar_hex, nibble_range.
Qed.

Lemma hexdigest_length h : length (hexdigest h) = 64%nat.
Proof. unfold hexdigest. rewrite !length_app, !hex32_length. reflexivity. Qed.

Lemma hexdigest_hex h : forallb Spec.is_hex_digit (hexdigest h) = true.
Proof. unfold hexdigest. rewrite !forallb_app, !hex32_hex. reflexivity. Qed.

(** [s[-n:]] is the last [n] characters of [s]. *)
Lemma slice_from_last (s : str) (n : nat) :
  (0 < n)%nat -> slice_from s (- Z.of_nat n) = Spec.last_chars n s.
Proof.
  intros Hn. unfold slice_from, Spec.last_chars, bound.
  assert ((- Z.of_nat n <? 0) = true) as -> by (apply Z.ltb_lt; lia).
  rewrite firstn_rev, rev_involutive. f_equal. lia.
Qed.

(** The last eight characters of the digest write its last word. *)
Lemma hexdigest_last h : slice_from (hexdigest h) (-8) = hex32 (rh h).
Proof.
  unfold slice_from. rewrite hexdigest_length.
  change (bound (-8) 64) with 56%nat. unfold hexdigest.
  rewrite !app_assoc.
  match goal with
  | |- drop _ (?l ++ _) = _ =>
      replace 56%nat with (length l) by (rewrite !length_app, !hex32_length; reflexivity)
  end.
  apply drop_app_length.
Qed.

End DigestFacts.

(** ** The calendar: [_ord2ymd] inverts the day count *)

Section CalendarFacts.
Import datetime.

Lemma days_in_years_closed (n : nat) :
  Calendar.days_in_years n
  = 365 * Z.of_nat n + Z.of_nat n / 4 - Z.of_nat n / 100 + Z.of_nat n / 400.
Proof.
  induction n as [|n IH]; [reflexivity|].
  cbn [Calendar.days_in_years]. rewrite IH.
  unfold Calendar.days_in_year, Calendar.is_leap.
  replace (Z.of_nat n) with (Z.of_nat (S n) - 1) by lia.
  generalize (Z.of_nat (S n)). intros m.
  destruct (Z.eqb_spec (m mod 4) 0), (Z.eqb_spec (m mod 100) 0),
    (Z.eqb_spec (m mod 400) 0); cbn [andb orb negb];
    Z.div_mod_to_equations; lia.
Qed.

Lemma days_before_year (y : Z) :
  1 <= y ->
  Calendar.days_in_years (Z.to_nat (y - 1))
  = 365 * (y - 1) + (y - 1) / 4 - (y - 1) / 100 + (y - 1) / 400.
Proof. intros H. rewrite days_in_years_closed, Z2Nat.id by lia. reflexivity. Qed.

Lemma is_leap_month y y' m :
  Calendar.is_leap y = Calendar.is_leap y' ->
  Calendar.days_in_month y m = Calendar.days_in_month y' m.
Proof. unfold Calendar.days_in_month. intros ->. reflexivity. Qed.

Lemma is_leap_months y y' n :
  Calendar.is_leap y = Calendar.is_leap y' ->
  Calendar.days_in_months y n = Calendar.days_in_months y' n.
Proof.
  intros H. induction n as [|n IH]; [reflexivity|].
  cbn [Calendar.days_in_months]. rewrite IH, (is_leap_month y y' _ H). reflexivity.
Qed.

Lemma month_day_checked (leap : bool) (n : Z) :
  0 <= n < 365 + (if leap then 1 else 0) -> Calendar.month_day_ok leap n = true.
Proof.
  intros H.
  assert (Hall : forallb (fun k => Calendar.month_day_ok leap (Z.of_nat k))
                   (seq 0 (if leap then 366 else 365)) = true)
    by (destruct leap; vm_compute; reflexivity).
  rewrite forallb_forall in Hall. specialize (Hall (Z.to_nat n)).
  rewrite Z2Nat.id in Hall by lia. apply Hall, in_seq. destruct leap; lia.
Qed.

(** The month and day [_month_day] returns are those of the calendar. *)
Lemma month_day_spec y n :
  0 <= n < Calendar.days_in_year y ->
  exists m d,
    _month_day (Calendar.is_leap y) n = (m, d)
    /\ 1 <= m <= 12 /\ 1 <= d <= Calendar.days_in_month y m
    /\ Calendar.days_in_months y (Z.to_nat (m - 1)) + d = n + 1.
Proof.
  unfold Calendar.days_in_year. intros H.
  assert (Hok := month_day_checked (Calendar.is_leap y) n).
  unfold Calendar.month_day_ok in Hok.
  destruct (_month_day (Calendar.is_leap y) n) as [m d].
  set (y' := if Calendar.is_leap y then 4 else 1) in Hok.
  assert (Hy : Calendar.is_leap y = Calendar.is_leap y')
    by (unfold y'; destruct (Calendar.is_leap y); reflexivity).
  rewrite <- (is_leap_month y y' m Hy), <- (is_leap_months y y' _ Hy) in Hok.
  exists m, d. split; [reflexivity|].
  assert (Hok' : (1 <=? m) && (m <=? 12) && (1 <=? d)
                 && (d <=? Calendar.days_in_month y m)
                 && (Calendar.days_in_months y (Z.to_nat (m - 1)) + d =? n + 1) = true)
    by (apply Hok; destruct (Calendar.is_leap y); lia).
  clear Hok. repeat (apply andb_true_iff in Hok' as [Hok' ?]). lia.
Qed.

(** The year [_ord2ymd] finds, through the 400-, 100-, 4- and 1-year
    cycles.  [a], [b], [c], [e] are the cycle counts [n400], [n100],
    [n4], [n1] and [f] is the day left in the year. *)
Lemma year_cycles n0 :
  0 <= n0 ->
  let a := n0 / 146097 in
  let r1 := n0 mod 146097 in
  let b := r1 / 36524 in
  let r2 := r1 mod 36524 in
  let c := r2 / 1461 in
  let r3 := r2 mod 1461 in
  let e := r3 / 365 in
  let f := r3 mod 365 in
  let year := a * 400 + 1 + (b * 100 + c * 4 + e) in
  0 <= a /\ 0 <= b <= 4 /\ 0 <= c <= 24 /\ 0 <= e <= 4 /\ 0 <= f < 365 /\
  n0 = 146097 * a + 36524 * b + 1461 * c + 365 * e + f /\
  (b = 4 -> c = 0 /\ e = 0 /\ f = 0) /\
  (e = 4 -> f = 0 /\ c <= 23).
Proof.
  intros H a r1 b r2 c r3 e f year. subst a r1 b r2 c r3 e f.
  Z.div_mod_to_equations. lia.
Qed.

Lemma is_leap_cycles a b c e :
  0 <= b <= 3 -> 0 <= c <= 24 -> 0 <= e <= 3 ->
  Calendar.is_leap (a * 400 + 1 + (b * 100 + c * 4 + e))
  = ((e =? 3) && (negb (c =? 24) || (b =? 3))).
Proof.
  intros Hb Hc He. unfold Calendar.is_leap.
  set (y := a * 400 + 1 + (b * 100 + c * 4 + e)).
  assert (H4 : y mod 4 = (e + 1) mod 4) by (subst y; Z.div_mod_to_equations; lia).
  assert (H100 : y mod 100 = (4 * c + e + 1) mod 100)
    by (subst y; Z.div_mod_to_equations; lia).
  assert (H400 : y mod 400 = (100 * b + 4 * c + e + 1) mod 400)
    by (subst y; Z.div_mod_to_equations; lia).
  rewrite H4, H100, H400. clear H4 H100 H400 y.
  destruct (Z.eqb_spec e 3), (Z.eqb_spec c 24), (Z.eqb_spec b 3);
    cbn [andb orb negb];
    repeat match goal with
           | |- context [?x =? 0] => destruct (Z.eqb_spec x 0)
           end; cbn [andb orb negb]; try reflexivity;
    exfalso; Z.div_mod_to_equations; lia.
Qed.

Lemma days_before_year_cycles a b c e :
  0 <= a -> 0 <= b <= 3 -> 0 <= c <= 24 -> 0 <= e <= 3 ->
  Calendar.days_in_years (Z.to_nat (a * 400 + 1 + (b * 100 + c * 4 + e) - 1))
  = 146097 * a + 36524 * b + 1461 * c + 365 * e.
Proof.
  intros Ha Hb Hc He. rewrite days_before_year by lia.
  Z.div_mod_to_equations. lia.
Qed.

Lemma ord2ymd_spec ordinal :
  1 <= ordinal ->
  exists y m d,
    _ord2ymd ordinal = (y, m, d)
    /\ 1 <= y /\ 1 <= m <= 12 /\ 1 <= d <= Calendar.days_in_month y m
    /\ Calendar.ordinal y m d = ordinal.
Proof.
  intros H. unfold _ord2ymd, _DI400Y, _DI100Y, _DI4Y.
  assert (Hc := year_cycles (ordinal - 1)). cbv zeta in Hc |- *.
  set (a := (ordinal - 1) / 146097) in *.
  set (r1 := (ordinal - 1) mod 146097) in *.
  set (b := r1 / 36524) in *. set (r2 := r1 mod 36524) in *.
  set (c := r2 / 1461) in *. set (r3 := r2 mod 1461) in *.
  set (e := r3 / 365) in *. set (f := r3 mod 365) in *.
  destruct Hc as (Ha & Hb & Hc & He & Hf & Hn & Hb4 & He4); [lia|].
  clearbody a b c e f. clear r1 r2 r3.
  destruct ((e =? 4) || (b =? 4)) eqn:Hsp.
  - (* the last day of a leap year *)
    set (y := a * 400 + 1 + (b * 100 + c * 4 + e) - 1).
    assert (Hcase : (e = 4 /\ b <= 3) \/ b = 4)
      by (apply orb_true_iff in Hsp as [Hsp|Hsp]; apply Z.eqb_eq in Hsp; lia).
    assert (Hleap : Calendar.is_leap y = true).
    { unfold Calendar.is_leap.
      destruct (Z.eqb_spec (y mod 4) 0), (Z.eqb_spec (y mod 100) 0),
        (Z.eqb_spec (y mod 400) 0); cbn [andb orb negb]; try reflexivity;
        exfalso; subst y; Z.div_mod_to_equations; lia. }
    exists y, 12, 31. split; [reflexivity|].
    split; [subst y; lia|]. split; [lia|].
    split; [change (Calendar.days_in_month y 12) with 31; lia|].
    unfold Calendar.ordinal. change (Z.to_nat (12 - 1)) with 11%nat.
    rewrite (is_leap_months y 4 11) by (rewrite Hleap; reflexivity).
    change (Calendar.days_in_months 4 11) with 335.
    rewrite days_before_year by (subst y; lia).
    subst y. Z.div_mod_to_equations. lia.
  - apply orb_false_iff in Hsp as [He' Hb']. apply Z.eqb_neq in He', Hb'.
    rewrite <- (is_leap_cycles a b c e) by lia.
    set (year := a * 400 + 1 + (b * 100 + c * 4 + e)).
    destruct (month_day_spec year f) as (m & d & Hmd & Hm & Hd & Hsum).
    { unfold Calendar.days_in_year. destruct (Calendar.is_leap year); lia. }
    rewrite Hmd. exists year, m, d. split; [reflexivity|].
    split; [subst year; lia|]. split; [lia|]. split; [lia|].
    unfold Calendar.ordinal. unfold year at 1.
    rewrite days_before_year_cycles by lia. lia.
Qed.

Lemma days_in_months_nonneg y n : 0 <= Calendar.days_in_months y n.
Proof.
  induction n as [|n IH]; cbn [Calendar.days_in_months]; [lia|].
  assert (28 <= Calendar.days_in_month y (Z.of_nat (S n))); [|lia].
  unfold Calendar.days_in_month.
  repeat match goal with |- context [if ?b then _ else _] => destruct b end; lia.
Qed.

Lemma epoch_ordinal : Calendar.ordinal 1970 1 1 = _EPOCH_ORDINAL.
Proof. vm_compute. reflexivity. Qed.

(** [fromtimestamp_utc] on a representable timestamp: the fields are a
    valid date and time of day, and they denote that second. *)
Lemma fromtimestamp_spec us :
  Calendar.min_seconds <= us / 1000000 <= Calendar.max_seconds ->
  exists dt,
    fromtimestamp_utc us = Ok dt
    /\ Calendar.valid_date (year dt) (month dt) (day dt)
    /\ Calendar.valid_time (hour dt) (minute dt) (second dt)
    /\ Calendar.epoch_seconds (year dt) (month dt) (day dt)
         (hour dt) (minute dt) (second dt) = us / 1000000
    /\ microsecond dt = us mod 1000000.
Proof.
  unfold Calendar.min_seconds, Calendar.max_seconds. intros H.
  unfold fromtimestamp_utc, _MAXORDINAL.
  set (secs := us / 1000000) in *. set (days := secs / 86400).
  set (rem := secs mod 86400).
  assert (Hsecs : secs = 86400 * days + rem /\ 0 <= rem < 86400)
    by (subst days rem; Z.div_mod_to_equations; lia).
  clearbody days rem. destruct Hsecs as [Hsecs Hrem].
  assert (Hord : 1 <= days + _EPOCH_ORDINAL <= 3652059)
    by (unfold _EPOCH_ORDINAL; lia).
  assert (((days + _EPOCH_ORDINAL <? 1) || (3652059 <? days + _EPOCH_ORDINAL)) = false)
    as -> by (apply orb_false_iff; split; apply Z.ltb_ge; lia).
  destruct (ord2ymd_spec (days + _EPOCH_ORDINAL)) as (y & m & d & -> & Hy & Hm & Hd & Ho);
    [lia|].
  eexists. split; [reflexivity|]. cbn [year month day hour minute second microsecond].
  assert (Hy' : y <= 9999).
  { unfold Calendar.ordinal in Ho. rewrite days_before_year in Ho by lia.
    pose proof (days_in_months_nonneg y (Z.to_nat (m - 1))).
    Z.div_mod_to_equations. lia. }
  split; [unfold Calendar.valid_date; lia|].
  split; [unfold Calendar.valid_time; Z.div_mod_to_equations; lia|].
  split; [|reflexivity].
  unfold Calendar.epoch_seconds. rewrite Ho, epoch_ordinal.
  Z.div_mod_to_equations. lia.
Qed.

(** Outside the representable range [fromtimestamp_utc] raises. *)
Lemma fromtimestamp_out_of_range us :
  ~ (Calendar.min_seconds <= us / 1000000 <= Calendar.max_seconds) ->
  fromtimestamp_utc us = Raise ValueError.
Proof.
  unfold Calendar.min_seconds, Calendar.max_seconds. intros H.
  unfold fromtimestamp_utc, _MAXORDINAL, _EPOCH_ORDINAL.
  set (secs := us / 1000000) in *.
  assert (((secs / 86400 + 719163 <? 1) || (3652059 <? secs / 86400 + 719163)) = true)
    as ->; [|reflexivity].
  apply orb_true_iff. rewrite !Z.ltb_lt. Z.div_mod_to_equations. lia.
Qed.

Lemma digit_code n : PyStr.code (digit n) = 48 + n mod 10.
Proof.
  unfold digit, PyStr.code, PyStr.chr.
  assert (0 <= n mod 10 < 10) by (apply Z.mod_pos_bound; lia).
  rewrite nat_ascii_embedding by lia. lia.
Qed.

Lemma digit_is_digit n : Spec.is_digit (digit n) = true.
Proof.
  unfold Spec.is_digit. rewrite digit_code.
  assert (0 <= n mod 10 < 10) by (apply Z.mod_pos_bound; lia).
  apply andb_true_iff. split; apply Z.leb_le; lia.
Qed.

Lemma decimal_length w n : length (decimal w n) = w.
Proof.
  revert n. induction w as [|w IH]; intros n; cbn [decimal]; [reflexivity|].
  rewrite length_app, IH. simpl. lia.
Qed.

Lemma decimal_digits w n : forallb Spec.is_digit (decimal w n) = true.
Proof.
  revert n. induction w as [|w IH]; intros n; cbn [decimal]; [reflexivity|].
  rewrite forallb_app, IH. cbn [forallb]. rewrite digit_is_digit. reflexivity.
Qed.

(** [decimal] writes its argument: reading the digits gives it back. *)
Lemma number_decimal w n :
  0 <= n < 10 ^ Z.of_nat w -> Spec.number (decimal w n) = n.
Proof.
  unfold Spec.number. revert n. induction w as [|w IH]; intros n Hn.
  - change (10 ^ Z.of_nat 0) with 1 in Hn. cbn. lia.
  - cbn [decimal]. rewrite fold_left_app. cbn [fold_left].
    rewrite digit_code, IH.
    + Z.div_mod_to_equations. lia.
    + rewrite Nat2Z.inj_succ, Z.pow_succ_r in Hn by lia.
      Z.div_mod_to_equations. lia.
Qed.

Lemma strftime_layout dt :
  strftime (py "%Y%m%d-%H%M%S") dt
  = decimal 4 (year dt) ++ decimal 2 (month dt) ++ decimal 2 (day dt) ++ py "-"
    ++ decimal 2 (hour dt) ++ decimal 2 (minute dt) ++ decimal 2 (second dt).
Proof.
  rewrite <- (app_nil_r (decimal 2 (second dt))). reflexivity.
Qed.

End CalendarFacts.

(** * The handler *)

(** ** Shared lemmas *)

Section HandlerFacts.
Import PyStr posixpath.

Lemma timezone_utc : datetime.pytz_timezone USE_DATETIME_TIMEZONE = Ok datetime.UTC.
Proof. reflexivity. Qed.

Lemma format_CONSTRUCT_FN (file_date file_cksum ext : str) :
  format CONSTRUCT_FN
    [(py "datetime", file_date); (py "checksum", file_cksum); (py "ext", ext)]
  = Ok (py "Screenshot-" ++ file_date ++ py "-" ++ file_cksum ++ ext).
Proof.
  rewrite <- (app_nil_r ext) at 2. vm_compute. reflexivity.
Qed.

(** [new_filename] is the template filled with the three parts, once
    the two that read the file have returned. *)
Lemma new_filename_parts fs path ts ck :
  file_datetime fs path = Ok ts ->
  checksum_partial fs path = Ok ck ->
  new_filename fs path
  = Ok (py "Screenshot-" ++ ts ++ py "-" ++ ck ++ (splitext (basename path)).2).
Proof.
  intros Hts Hck. unfold new_filename. rewrite Hts, Hck. cbn [bind].
  apply format_CONSTRUCT_FN.
Qed.

Lemma checksum_partial_readable fs path data mtime :
  fs !! path = Some (os.File data mtime true) ->
  checksum_partial fs path = Ok (hashlib.hex32 (hashlib.rh (hashlib.sha256 data))).
Proof.
  intros H. unfold checksum_partial, os.read_bytes. rewrite H. cbn [bind].
  rewrite hexdigest_last. reflexivity.
Qed.

Lemma checksum_partial_inv fs path ck :
  checksum_partial fs path = Ok ck ->
  exists data mtime,
    fs !! path = Some (os.File data mtime true)
    /\ ck = hashlib.hex32 (hashlib.rh (hashlib.sha256 data)).
Proof.
  unfold checksum_partial, os.read_bytes.
  destruct (fs !! path) as [[data mtime [|]|mtime]|] eqn:E; cbn [bind];
    try discriminate.
  intros [= <-]. exists data, mtime. split; [reflexivity|].
  apply hexdigest_last.
Qed.

Lemma file_datetime_exists fs path n :
  fs !! path = Some n ->
  Calendar.min_seconds <= os.node_mtime n / 1000000 <= Calendar.max_seconds ->
  exists ts, file_datetime fs path = Ok ts
             /\ Calendar.timestamp_of (os.node_mtime n / 1000000) ts.
Proof.
  intros Hn Hrange. unfold file_datetime, os.stat_st_mtime. rewrite Hn.
  cbn [bind]. rewrite timezone_utc. cbn [bind datetime.fromtimestamp].
  destruct (fromtimestamp_spec _ Hrange)
    as (dt & -> & Hdate & Htime & Hsecs & _).
  cbn [bind]. eexists. split; [reflexivity|].
  rewrite strftime_layout.
  destruct Hdate as (Hy & Hm & Hd). destruct Htime as (HH & HM & HS).
  assert (Hd' : datetime.day dt <= 31).
  { revert Hd. unfold Calendar.days_in_month.
    repeat match goal with |- context [if ?b then _ else _] => destruct b end; lia. }
  exists (datetime.decimal 4 (datetime.year dt)),
    (datetime.decimal 2 (datetime.month dt)),
    (datetime.decimal 2 (datetime.day dt)),
    (datetime.decimal 2 (datetime.hour dt)),
    (datetime.decimal 2 (datetime.minute dt)),
    (datetime.decimal 2 (datetime.second dt)).
  rewrite !decimal_length, !forallb_app, !decimal_digits.
  rewrite !number_decimal
    by (first [change (10 ^ Z.of_nat 4) with 10000
              | change (10 ^ Z.of_nat 2) with 100]; lia).
  unfold Calendar.valid_date, Calendar.valid_time. repeat split; auto; lia.
Qed.

Lemma file_datetime_inv fs path ts :
  file_datetime fs path = Ok ts ->
  exists n, fs !! path = Some n
            /\ Calendar.min_seconds <= os.node_mtime n / 1000000 <= Calendar.max_seconds.
Proof.
  unfold file_datetime, os.stat_st_mtime.
  destruct (fs !! path) as [n|] eqn:E; cbn [bind]; [|discriminate].
  rewrite timezone_utc. cbn [bind datetime.fromtimestamp].
  intros H. exists n. split; [reflexivity|].
  destruct (decide (Calendar.min_seconds <= os.node_mtime n / 1000000
                    <= Calendar.max_seconds)) as [Hr|Hr]; [exact Hr|].
  rewrite (fromtimestamp_out_of_range _ Hr) in H. discriminate.
Qed.

Lemma forallb_absent (P : ascii -> bool) (c : ascii) (s : str) :
  forallb P s = true -> P c = false -> c ∉ s.
Proof.
  intros Hs Hc Hin. rewrite forallb_forall in Hs.
  apply list_elem_of_In in Hin. apply Hs in Hin. congruence.
Qed.


(** A name made of a timestamp, a checksum fragment and a dotted
    extension is canonical, and is its own base name. *)
Lemma canonical_compose secs ts ck e :
  Calendar.timestamp_of secs ts ->
  length ck = 8%nat -> forallb Spec.is_hex_digit ck = true ->
  sep ∉ e ->
  let name := py "Screenshot-" ++ ts ++ py "-" ++ ck ++ extsep :: e in
  Spec.canonical_name name /\ basename name = name.
Proof.
  intros (Y & Mo & D & H & Mi & S & -> & Hlen & Hdig & _) Hck1 Hck2 He name.
  destruct Hlen as (HY & HMo & HD & HH & HMi & HS).
  rewrite !forallb_app in Hdig.
  repeat (apply andb_true_iff in Hdig as [? Hdig]).
  split.
  - exists (Y ++ Mo ++ D), (H ++ Mi ++ S), ck, e.
    rewrite !length_app, !forallb_app. repeat split; auto; try lia.
    + unfold name. rewrite <- !app_assoc. reflexivity.
    + repeat (apply andb_true_iff; split); auto.
    + repeat (apply andb_true_iff; split); auto.
  - apply basename_id. unfold name.
    rewrite !not_elem_of_app, !not_elem_of_cons.
    repeat split; try discriminate; try exact He;
      try (eapply forallb_absent; [eassumption | reflexivity]);
      apply (bool_decide_unpack _); vm_compute; exact I.
Qed.

(** The three filters of [handle_event], and what follows them. *)
Lemma handle_event_filtered fs event :
  is_directory event = true
  \/ strip (lower (splitext (basename (src_path event))).2) ∉ VALID_EXTS
  \/ needs_rename (src_path event) = false ->
  handle_event fs event = Ok (fs, false).
Proof.
  unfold handle_event. intros [H | [H | H]].
  - rewrite H. reflexivity.
  - destruct (is_directory event); [reflexivity|].
    rewrite bool_decide_eq_false_2 by exact H. reflexivity.
  - destruct (is_directory event); [reflexivity|].
    destruct (negb (bool_decide _)); [reflexivity|].
    rewrite H. reflexivity.
Qed.

Lemma handle_event_passed fs event :
  is_directory event = false ->
  strip (lower (splitext (basename (src_path event))).2) ∈ VALID_EXTS ->
  needs_rename (src_path event) = true ->
  handle_event fs event
  = (let* new_fn := new_filename fs (src_path event) in
     rename fs (src_path event) new_fn).
Proof.
  unfold handle_event. intros -> H ->.
  rewrite bool_decide_eq_true_2 by exact H. reflexivity.
Qed.

(** With no source and nothing at the destination, [rename] moves
    nothing, raises nothing, and returns true. *)
Lemma rename_missing_source fs path new_name :
  fs !! path = None ->
  fs !! join (dirname path) new_name = None ->
  rename fs path new_name = Ok (fs, true).
Proof.
  intros Hsrc Hdst. unfold rename, os.path_exists. rewrite Hsrc, Hdst. reflexivity.
Qed.

(** With a source and nothing at the destination, [rename] moves the
    node and returns true. *)
Lemma rename_moves fs path new_name n :
  fs !! path = Some n ->
  fs !! join (dirname path) new_name = None ->
  rename fs path new_name
  = Ok (<[join (dirname path) new_name := n]> (delete path fs), true).
Proof.
  intros Hsrc Hdst. unfold rename, os.path_exists, os.shutil_move.
  rewrite Hsrc, Hdst. reflexivity.
Qed.

End HandlerFacts.

(** ** The models on known values *)

Section Checks.
Import PyStr posixpath.

Example sha256_empty :
  hashlib.hexdigest (hashlib.sha256 (bytes_of ""))
  = py "e3b0c44298fc1c149afbf4c8996fb92427ae41e4649b934ca495991b7852b855".
Proof. vm_compute. reflexivity. Qed.

Example sha256_two_blocks :
  hashlib.hexdigest
    (hashlib.sha256 (bytes_of "abcdbcdecdefdefgefghfghighijhijkijkljklmklmnlmnomnopnopq"))
  = py "248d6a61d20638b8e5c026930c3e6039a33ce45964ff2167f6ecedd419db06c1".
Proof. vm_compute. reflexivity. Qed.

Example basename_examples :
  basename (py "/tmp/shot.png") = py "shot.png"
  /\ basename (py "shot.png") = py "shot.png"
  /\ basename (py "/tmp/") = py "".
Proof. repeat split. Qed.

Example dirname_examples :
  dirname (py "/tmp/shot.png") = py "/tmp"
  /\ dirname (py "shot.png") = py ""
  /\ dirname (py "/shot.png") = py "/"
  /\ dirname (py "a//b") = py "a".
Proof. repeat split. Qed.

Example join_examples :
  join (py "/tmp") (py "a.png") = py "/tmp/a.png"
  /\ join (py "") (py "a.png") = py "a.png"
  /\ join (py "/") (py "a.png") = py "/a.png"
  /\ join (py "/tmp") (py "/a.png") = py "/a.png".
Proof. repeat split. Qed.

Example splitext_examples :
  splitext (py "shot.png") = (py "shot", py ".png")
  /\ splitext (py "foo.bar.exe") = (py "foo.bar", py ".exe")
  /\ splitext (py "bar") = (py "bar", py "")
  /\ splitext (py ".cshrc") = (py ".cshrc", py "")
  /\ splitext (py "/foo/....jpg") = (py "/foo/....jpg", py "")
  /\ splitext (py "a.b/c") = (py "a.b/c", py "").
Proof. repeat split. Qed.

Example lower_strip_examples :
  strip (lower (py ".PNG")) = py ".png"
  /\ strip (lower (py ".JpEg ")) = py ".jpeg"
  /\ lower (py ".JpEg ") = py ".jpeg ".
Proof. repeat split. Qed.

Example fromtimestamp_limits :
  datetime.fromtimestamp_utc (Calendar.min_seconds * 1000000)
  = Ok (datetime.mk 1 1 1 0 0 0 0)
  /\ datetime.fromtimestamp_utc (Calendar.max_seconds * 1000000 + 999999)
     = Ok (datetime.mk 9999 12 31 23 59 59 999999)
  /\ datetime.fromtimestamp_utc (Calendar.min_seconds * 1000000 - 1) = Raise ValueError
  /\ datetime.fromtimestamp_utc ((Calendar.max_seconds + 1) * 1000000) = Raise ValueError
  /\ datetime.fromtimestamp_utc (-1) = Ok (datetime.mk 1969 12 31 23 59 59 999999)
  /\ datetime.fromtimestamp_utc 951782400000000 = Ok (datetime.mk 2000 2 29 0 0 0 0).
Proof. repeat split. Qed.

(** The upper-case extension passes the filter and is kept as it is. *)
Example handle_event_renames_img :
  handle_event Examples.fs_img (Event Examples.img false)
  = Ok ({[ py "/tmp/Screenshot-20231201-083000-f20015ad.PNG"
           := os.File (bytes_of "abc") 1701419400000000 true ]}, true).
Proof.
  rewrite handle_event_passed;
    [| reflexivity
     | apply (bool_decide_unpack _); vm_compute; exact I
     | vm_compute; reflexivity ].
  cbn [src_path].
  assert (new_filename Examples.fs_img Examples.img
          = Ok (py "Screenshot-20231201-083000-f20015ad.PNG")) as ->
    by (vm_compute; reflexivity).
  cbn [bind].
  rewrite (rename_moves _ _ _ (os.File (bytes_of "abc") 1701419400000000 true))
    by (vm_compute; reflexivity).
  unfold Examples.fs_img. rewrite delete_singleton_eq, insert_empty. reflexivity.
Qed.

End Checks.

(** * The claims *)

Section Claims.
Import PyStr posixpath.

(** C1.  [needs_rename(path)] is true exactly when the base name of
    [path] does not match the canonical pattern: it is true for every
    name that is not canonical and false for every name that is. *)
Theorem needs_rename_iff_not_canonical (path : str) :
  (needs_rename path = true <-> ~ Spec.canonical_name (basename path))
  /\ (needs_rename path = false <-> Spec.canonical_name (basename path)).
Proof.
  unfold needs_rename. rewrite <- VALID_FN_match.
  destruct (re.match_ VALID_FN (basename path)); cbn [negb];
    intuition congruence.
Qed.

(** C10.  The check is anchored at the start of the base name only:
    whatever follows the dot after the checksum, [needs_rename] is
    false and [handle_event] renames nothing.  The witness is
    [Screenshot-20240101-123456-deadbeef.png.partial]. *)
Theorem needs_rename_anchored_at_start (path date time checksum rest : str) :
  length date = 8%nat -> forallb Spec.is_digit date = true ->
  length time = 6%nat -> forallb Spec.is_digit time = true ->
  length checksum = 8%nat -> forallb Spec.is_hex_digit checksum = true ->
  basename path
  = py "Screenshot-" ++ date ++ py "-" ++ time ++ py "-" ++ checksum ++ py "." ++ rest ->
  needs_rename path = false
  /\ forall fs is_dir, handle_event fs (Event path is_dir) = Ok (fs, false).
Proof.
  intros Hd1 Hd2 Ht1 Ht2 Hc1 Hc2 Hb.
  assert (Hn : needs_rename path = false).
  { unfold needs_rename. apply negb_false_iff, VALID_FN_match.
    exists date, time, checksum, rest. repeat split; auto. }
  split; [exact Hn|]. intros fs is_dir.
  apply handle_event_filtered. right. right. exact Hn.
Qed.

Lemma needs_rename_anchored_at_start_witness :
  basename Examples.partial_download
  = py "Screenshot-" ++ py "20240101" ++ py "-" ++ py "123456" ++ py "-"
    ++ py "deadbeef" ++ py "." ++ py "png.partial"
  /\ needs_rename Examples.partial_download = false
  /\ forall fs is_dir,
       handle_event fs (Event Examples.partial_download is_dir) = Ok (fs, false).
Proof.
  split; [reflexivity|].
  apply (needs_rename_anchored_at_start Examples.partial_download
           (py "20240101") (py "123456") (py "deadbeef") (py "png.partial"));
    reflexivity.
Defined.



(** C2.  [new_filename(path)] is [Screenshot-], the timestamp, [-],
    the checksum fragment and the extension.  The extension is the end
    of [path] character for character: empty, or the last dot of the
    base name and what follows it. *)
Theorem new_filename_composition fs path ts ck :
  file_datetime fs path = Ok ts ->
  checksum_partial fs path = Ok ck ->
  exists dir root ext,
    path = dir ++ root ++ ext
    /\ basename path = root ++ ext
    /\ splitext (basename path) = (root, ext)
    /\ (ext = [] \/ exists e, ext = extsep :: e /\ (extsep ∉ e))
    /\ new_filename fs path = Ok (py "Screenshot-" ++ ts ++ py "-" ++ ck ++ ext).
Proof.
  intros Hts Hck.
  destruct (basename_split path) as (dir & Hpath & Hsep & _).
  destruct (splitext_spec _ Hsep) as (root & ext & Hsplit & Hbase & Hcase).
  exists dir, root, ext. split; [rewrite <- Hbase; exact Hpath|].
  split; [exact Hbase|]. split; [exact Hsplit|]. split.
  - destruct Hcase as [[-> _] | (e & -> & He & _)]; [left; reflexivity|].
    right. exists e. split; [reflexivity | exact He].
  - rewrite (new_filename_parts _ _ _ _ Hts Hck), Hsplit. reflexivity.
Qed.

Lemma new_filename_composition_witness :
  file_datetime Examples.fs_img Examples.img = Ok (py "20231201-083000")
  /\ checksum_partial Examples.fs_img Examples.img = Ok (py "f20015ad")
  /\ exists dir root ext,
       Examples.img = dir ++ root ++ ext
       /\ basename Examples.img = root ++ ext
       /\ splitext (basename Examples.img) = (root, ext)
       /\ (ext = [] \/ exists e, ext = extsep :: e /\ (extsep ∉ e))
       /\ new_filename Examples.fs_img Examples.img
          = Ok (py "Screenshot-" ++ py "20231201-083000" ++ py "-" ++ py "f20015ad" ++ ext).
Proof.
  assert (Hts : file_datetime Examples.fs_img Examples.img = Ok (py "20231201-083000"))
    by (vm_compute; reflexivity).
  assert (Hck : checksum_partial Examples.fs_img Examples.img = Ok (py "f20015ad"))
    by (vm_compute; reflexivity).
  split; [exact Hts|]. split; [exact Hck|].
  exact (new_filename_composition _ _ _ _ Hts Hck).
Defined.

(** C3.  For a readable file, [checksum_partial] is the last 8
    characters of the 64 hexadecimal digits that write the SHA-256
    digest of the whole content. *)
Theorem checksum_partial_last_8_hex fs path data mtime :
  fs !! path = Some (os.File data mtime true) ->
  let digest := hashlib.hexdigest (hashlib.sha256 data) in
  length digest = 64%nat
  /\ forallb Spec.is_hex_digit digest = true
  /\ checksum_partial fs path = Ok (Spec.last_chars 8 digest)
  /\ length (Spec.last_chars 8 digest) = 8%nat.
Proof.
  intros Hfile digest.
  assert (Hlast : Spec.last_chars 8 digest = slice_from digest (-8))
    by (symmetry; apply (slice_from_last digest 8); lia).
  split; [apply hexdigest_length|]. split; [apply hexdigest_hex|].
  rewrite Hlast. split.
  - unfold checksum_partial, os.read_bytes. rewrite Hfile. reflexivity.
  - unfold digest. rewrite hexdigest_last. apply hex32_length.
Qed.

Lemma checksum_partial_last_8_hex_witness :
  Examples.fs_shot !! Examples.shot
  = Some (os.File (bytes_of "abc") 1709647629000000 true)
  /\ hashlib.hexdigest (hashlib.sha256 (bytes_of "abc"))
     = py "ba7816bf8f01cfea414140de5dae2223b00361a396177a9cb410ff61f20015ad"
  /\ checksum_partial Examples.fs_shot Examples.shot = Ok (py "f20015ad").
Proof.
  assert (Hf : Examples.fs_shot !! Examples.shot
               = Some (os.File (bytes_of "abc") 1709647629000000 true))
    by (vm_compute; reflexivity).
  split; [exact Hf|]. split; [vm_compute; reflexivity|].
  destruct (checksum_partial_last_8_hex _ _ _ _ Hf) as (_ & _ & -> & _).
  vm_compute. reflexivity.
Defined.

(** C4.  When something exists at the destination (the directory of
    [path] joined with the new name), [rename] returns false and the
    file system is as before: nothing is overwritten, no other name is
    tried, source and destination are untouched. *)
Theorem rename_refuses_existing_destination fs path new_name :
  is_Some (fs !! join (dirname path) new_name) ->
  rename fs path new_name = Ok (fs, false).
Proof.
  intros [n Hn]. unfold rename, os.path_exists. rewrite Hn. reflexivity.
Qed.

Lemma rename_refuses_existing_destination_witness :
  is_Some (Examples.fs_both !! join (dirname Examples.shot) Examples.renamed)
  /\ rename Examples.fs_both Examples.shot Examples.renamed
     = Ok (Examples.fs_both, false).
Proof.
  assert (H : is_Some (Examples.fs_both
                       !! join (dirname Examples.shot) Examples.renamed))
    by (eexists; vm_compute; reflexivity).
  split; [exact H|].
  exact (rename_refuses_existing_destination _ _ _ H).
Defined.

(** C5.  [rename] called for a source that is gone, with nothing at
    the destination: the move is skipped and nothing is raised, but the
    call returns true, the value that reports a successful rename. *)
Theorem rename_vanished_source_returns_true :
  Examples.fs_img !! Examples.shot = None
  /\ Examples.fs_img !! join (dirname Examples.shot) Examples.renamed = None
  /\ rename Examples.fs_img Examples.shot Examples.renamed
     = Ok (Examples.fs_img, true).
Proof.
  assert (Hsrc : Examples.fs_img !! Examples.shot = None) by (vm_compute; reflexivity).
  assert (Hdst : Examples.fs_img !! join (dirname Examples.shot) Examples.renamed = None)
    by (vm_compute; reflexivity).
  split; [exact Hsrc|]. split; [exact Hdst|].
  exact (rename_missing_source _ _ _ Hsrc Hdst).
Qed.



(** C8, as stated, fails: the extension [.png ] (with a trailing
    space) is not in the set when compared case-insensitively, yet the
    handler strips it to [.png] and renames the file. *)
Lemma extension_filter_counterexample :
  (is_directory (Event Examples.shot_space false) = true
   \/ lower (splitext (basename Examples.shot_space)).2 ∉ VALID_EXTS)
  /\ handle_event Examples.fs_shot_space (Event Examples.shot_space false)
     = Ok (Examples.fs_renamed_space, true)
  /\ handle_event Examples.fs_shot_space (Event Examples.shot_space false)
     <> Ok (Examples.fs_shot_space, false).
Proof.
  assert (H : handle_event Examples.fs_shot_space (Event Examples.shot_space false)
              = Ok (Examples.fs_renamed_space, true)).
  { rewrite handle_event_passed;
      [| reflexivity
       | apply (bool_decide_unpack _); vm_compute; exact I
       | vm_compute; reflexivity ].
    cbn [src_path].
    assert (new_filename Examples.fs_shot_space Examples.shot_space
            = Ok (py "Screenshot-20240305-140709-f20015ad.png ")) as ->
      by (vm_compute; reflexivity).
    cbn [bind].
    rewrite (rename_moves _ _ _ Examples.screenshot)
      by (vm_compute; reflexivity).
    unfold Examples.fs_shot_space, Examples.fs_renamed_space.
    rewrite delete_singleton_eq, insert_empty. reflexivity. }
  split; [|split; [exact H | rewrite H; discriminate]].
  right. apply (bool_decide_unpack _). vm_compute. exact I.
Qed.

(** C8, amended.  [handle_event] renames nothing and returns false for
    a directory event, and for a file whose extension, lower-cased and
    with surrounding white space stripped, is not [.png], [.jpg] or
    [.jpeg]. *)
Theorem handle_event_filters_directories_and_extensions fs event :
  is_directory event = true
  \/ strip (lower (splitext (basename (src_path event))).2) ∉ VALID_EXTS ->
  handle_event fs event = Ok (fs, false)
  /\ on_created fs event = Ok (fs, false).
Proof.
  intros H.
  assert (handle_event fs event = Ok (fs, false))
    by (apply handle_event_filtered; tauto).
  split; [assumption | unfold on_created; assumption].
Qed.

Lemma handle_event_filters_directories_and_extensions_witness :
  (is_directory (Event Examples.folder true) = true
   /\ forall fs, handle_event fs (Event Examples.folder true) = Ok (fs, false))
  /\ ((strip (lower (splitext (basename Examples.animation)).2) ∉ VALID_EXTS)
      /\ forall fs, handle_event fs (Event Examples.animation false) = Ok (fs, false)).
Proof.
  split.
  - split; [reflexivity|]. intros fs.
    apply (handle_event_filters_directories_and_extensions fs (Event Examples.folder true)).
    left. reflexivity.
  - assert (H : strip (lower (splitext (basename Examples.animation)).2) ∉ VALID_EXTS)
      by (apply (bool_decide_unpack _); vm_compute; exact I).
    split; [exact H|]. intros fs.
    apply (handle_event_filters_directories_and_extensions fs (Event Examples.animation false)).
    right. exact H.
Defined.

(** C9.  When the file at [path] cannot be read (it is gone, it is a
    directory, or reading is not permitted), [checksum_partial] raises
    an [OSError], and no caller catches it: [new_filename] raises it
    too once the timestamp is computed and never returns a name, and
    [handle_event] raises for every event that passes its filters. *)
Theorem checksum_partial_propagates_io_error fs path :
  (forall data mtime, fs !! path <> Some (os.File data mtime true)) ->
  exists e,
    is_OSError e = true
    /\ checksum_partial fs path = Raise e
    /\ (forall ts, file_datetime fs path = Ok ts -> new_filename fs path = Raise e)
    /\ (forall name, new_filename fs path <> Ok name)
    /\ (forall event,
          src_path event = path ->
          is_directory event = false ->
          strip (lower (splitext (basename path)).2) ∈ VALID_EXTS ->
          needs_rename path = true ->
          exists e', handle_event fs event = Raise e').
Proof.
  intros Hread.
  assert (Hck : exists e, is_OSError e = true /\ checksum_partial fs path = Raise e).
  { unfold checksum_partial, os.read_bytes.
    destruct (fs !! path) as [[data mtime [|]|mtime]|] eqn:E; cbn [bind].
    - exfalso. apply (Hread data mtime). reflexivity.
    - exists PermissionError. split; reflexivity.
    - exists IsADirectoryError. split; reflexivity.
    - exists FileNotFoundError. split; reflexivity. }
  destruct Hck as (e & He & Hck). exists e.
  assert (Hnew : forall name, new_filename fs path <> Ok name).
  { intros name. unfold new_filename.
    destruct (file_datetime fs path); cbn [bind]; [|discriminate].
    rewrite Hck. cbn [bind]. discriminate. }
  split; [exact He|]. split; [exact Hck|]. split; [|split; [exact Hnew|]].
  - intros ts Hts. unfold new_filename. rewrite Hts, Hck. reflexivity.
  - intros event <- Hdir Hext Hneeds.
    rewrite (handle_event_passed fs event Hdir Hext Hneeds).
    destruct (new_filename fs (src_path event)) as [name|e'] eqn:E.
    + exfalso. apply (Hnew name). reflexivity.
    + exists e'. reflexivity.
Qed.

Lemma checksum_partial_propagates_io_error_witness :
  (forall data mtime,
      Examples.fs_locked !! Examples.shot <> Some (os.File data mtime true))
  /\ checksum_partial Examples.fs_locked Examples.shot = Raise PermissionError
  /\ new_filename Examples.fs_locked Examples.shot = Raise PermissionError
  /\ handle_event Examples.fs_locked (Event Examples.shot false) = Raise PermissionError
  /\ exists e,
       is_OSError e = true
       /\ checksum_partial Examples.fs_locked Examples.shot = Raise e.
Proof.
  assert (H : forall data mtime,
             Examples.fs_locked !! Examples.shot <> Some (os.File data mtime true))
    by (intros data mtime; vm_compute; discriminate).
  split; [exact H|].
  split; [vm_compute; reflexivity|]. split; [vm_compute; reflexivity|].
  split; [vm_compute; reflexivity|].
  destruct (checksum_partial_propagates_io_error _ _ H) as (e & He & Hck & _).
  exists e. split; [exact He | exact Hck].
Defined.

End Claims.

(** * Further properties of the handler *)

(** ** The destination of a rename *)

Section DestinationFacts.
Import PyStr posixpath.

Lemma rfind_app_last c (pre post : str) :
  c ∉ post -> rfind c (pre ++ c :: post) = Z.of_nat (length pre).
Proof.
  intros Hpost. induction pre as [|x pre IH].
  - cbn [app rfind length]. apply rfind_absent in Hpost.
    assert ((0 <=? rfind c post) = false) as -> by (apply Z.leb_gt; lia).
    rewrite Ascii.eqb_refl. reflexivity.
  - cbn [app rfind length]. rewrite IH.
    assert ((0 <=? Z.of_nat (length pre)) = true) as -> by (apply Z.leb_le; lia).
    lia.
Qed.

Lemma basename_app_sep (pre name : str) :
  sep ∉ name -> basename (pre ++ sep :: name) = name.
Proof.
  intros H. unfold basename. rewrite rfind_app_last by exact H.
  replace (Z.of_nat (length pre) + 1) with (Z.of_nat (length (pre ++ [sep])))
    by (rewrite length_app; simpl; lia).
  replace (pre ++ sep :: name) with ((pre ++ [sep]) ++ name)
    by (rewrite <- app_assoc; reflexivity).
  apply slice_from_app.
Qed.

Lemma startswith_absent (s : str) c : c ∉ s -> startswith s c = false.
Proof.
  destruct s as [|x s]; [reflexivity|]. intros H.
  apply not_elem_of_cons in H as [H _]. cbn [startswith].
  apply Ascii.eqb_neq. congruence.
Qed.

Lemma endswith_true (s : str) c : endswith s c = true -> exists d, s = d ++ [c].
Proof.
  unfold endswith. destruct (rev s) as [|x r] eqn:E; [discriminate|].
  intros H. apply Ascii.eqb_eq in H as ->. exists (rev r).
  rewrite <- (rev_involutive s), E. reflexivity.
Qed.

Lemma endswith_snoc (s : str) x c : endswith (s ++ [x]) c = Ascii.eqb x c.
Proof. unfold endswith. rewrite rev_app_distr. reflexivity. Qed.

(** The three shapes [join] gives a separator-free last component. *)
Lemma join_shape (d name : str) :
  sep ∉ name ->
  (d = [] /\ join d name = name)
  \/ exists pre, join d name = pre ++ sep :: name
                 /\ ((d = pre ++ [sep]) \/ (d = pre /\ d <> [] /\ endswith d sep = false)).
Proof.
  intros H. unfold join. rewrite (startswith_absent _ _ H).
  unfold PyStr.eqb. destruct (decide (d = [])) as [-> | Hd].
  - left. rewrite bool_decide_eq_true_2 by reflexivity. auto.
  - right. rewrite bool_decide_eq_false_2 by exact Hd. cbn [orb].
    destruct (endswith d sep) eqn:E.
    + apply endswith_true in E as [pre ->]. exists pre.
      rewrite <- app_assoc. auto.
    + exists d. auto.
Qed.

Lemma basename_join (d name : str) : sep ∉ name -> basename (join d name) = name.
Proof.
  intros H. destruct (join_shape d name H) as [[_ ->] | (pre & -> & _)].
  - apply basename_id, H.
  - apply basename_app_sep, H.
Qed.

Lemma lstrip_with_nil p (s : str) : lstrip_with p s = [] -> forallb p s = true.
Proof.
  induction s as [|x s IH]; cbn [lstrip_with forallb]; [reflexivity|].
  destruct (p x); [exact IH | discriminate].
Qed.

Lemma lstrip_with_head p (s : str) x r : lstrip_with p s = x :: r -> p x = false.
Proof.
  induction s as [|y s IH]; cbn [lstrip_with]; [discriminate|].
  destruct (p y) eqn:E; [exact IH|]. intros [= -> _]. exact E.
Qed.

Lemma forallb_sep_repeat (s : str) :
  forallb (Ascii.eqb sep) s = true -> s = repeat sep (length s).
Proof.
  induction s as [|x s IH]; cbn [forallb length repeat]; [reflexivity|].
  intros [Hx Hs]%andb_true_iff. apply Ascii.eqb_eq in Hx as <-. f_equal. auto.
Qed.

Lemma rstrip_snoc_sep (s : str) : rstrip (s ++ [sep]) sep = rstrip s sep.
Proof.
  unfold rstrip, rstrip_with. rewrite rev_app_distr. cbn [rev app lstrip_with].
  rewrite Ascii.eqb_refl. reflexivity.
Qed.

Lemma rstrip_unchanged (s : str) : endswith s sep = false -> rstrip s sep = s.
Proof.
  unfold endswith, rstrip, rstrip_with. intros H.
  destruct (rev s) as [|x r] eqn:E; cbn [lstrip_with].
  - rewrite <- (rev_involutive s), E. reflexivity.
  - rewrite Ascii.eqb_sym, H. rewrite <- E. apply rev_involutive.
Qed.

Lemma repeat_snoc (c : ascii) n : repeat c n ++ [c] = repeat c (S n).
Proof. induction n as [|n IH]; cbn [repeat app]; [reflexivity | f_equal; exact IH]. Qed.

Lemma rev_repeat (c : ascii) n : rev (repeat c n) = repeat c n.
Proof.
  induction n as [|n IH]; [reflexivity|].
  cbn [repeat rev]. rewrite IH. apply repeat_snoc.
Qed.

Lemma endswith_repeat n : endswith (repeat sep (S n)) sep = true.
Proof. rewrite <- repeat_snoc, endswith_snoc. apply Ascii.eqb_refl. Qed.

(** [dirname] returns separators only, or something that does not end
    in a separator. *)
Lemma dirname_shape p :
  dirname p = repeat sep (length (dirname p))
  \/ (dirname p <> [] /\ endswith (dirname p) sep = false).
Proof.
  unfold dirname. set (head := slice_to p (rfind sep p + 1)).
  unfold PyStr.eqb. destruct (decide (head = [])) as [E | E].
  - rewrite bool_decide_eq_true_2 by exact E. cbn [negb andb]. left.
    rewrite E. reflexivity.
  - rewrite bool_decide_eq_false_2 by exact E. cbn [negb andb].
    destruct (decide (head = repeat sep (length head))) as [E' | E'].
    + rewrite bool_decide_eq_true_2 by exact E'. cbn [negb]. left. exact E'.
    + rewrite bool_decide_eq_false_2 by exact E'. cbn [negb]. right.
      unfold rstrip, rstrip_with.
      destruct (lstrip_with (Ascii.eqb sep) (rev head)) as [|x r] eqn:EL.
      * exfalso. apply E'. apply lstrip_with_nil, forallb_sep_repeat in EL.
        rewrite length_rev in EL. apply (f_equal (@rev ascii)) in EL.
        rewrite rev_involutive, rev_repeat in EL. exact EL.
      * apply lstrip_with_head in EL. cbn [rev]. split.
        -- intros H. apply app_eq_nil in H as [_ H]. discriminate.
        -- rewrite endswith_snoc, Ascii.eqb_sym. exact EL.
Qed.

Lemma dirname_app_sep (pre name : str) :
  sep ∉ name ->
  dirname (pre ++ sep :: name)
  = if decide (pre ++ [sep] = repeat sep (length (pre ++ [sep])))
    then pre ++ [sep] else rstrip pre sep.
Proof.
  intros H. unfold dirname. rewrite rfind_app_last by exact H.
  replace (Z.of_nat (length pre) + 1) with (Z.of_nat (length (pre ++ [sep])))
    by (rewrite length_app; simpl; lia).
  replace (pre ++ sep :: name) with ((pre ++ [sep]) ++ name)
    by (rewrite <- app_assoc; reflexivity).
  rewrite slice_to_app. unfold PyStr.eqb.
  rewrite (bool_decide_eq_false_2 (pre ++ [sep] = []))
    by (intros E; apply app_eq_nil in E as [_ E]; discriminate).
  cbn [negb andb].
  destruct (decide (pre ++ [sep] = repeat sep (length (pre ++ [sep])))) as [E|E].
  - rewrite bool_decide_eq_true_2 by exact E. reflexivity.
  - rewrite bool_decide_eq_false_2 by exact E. cbn [negb]. apply rstrip_snoc_sep.
Qed.

(** Joining a separator-free name to the directory of a path gives a
    path in that directory. *)
Lemma dirname_join_dirname (p name : str) :
  sep ∉ name -> dirname (join (dirname p) name) = dirname p.
Proof.
  intros H. destruct (join_shape (dirname p) name H)
    as [[Hd ->] | (pre & -> & Hpre)].
  - rewrite Hd. unfold dirname. apply rfind_absent in H.
    assert (rfind sep name = -1) as -> by (pose proof (rfind_lower sep name); lia).
    reflexivity.
  - rewrite dirname_app_sep by exact H.
    destruct Hpre as [Hd | (Hd & Hne & Hend)].
    + (* the directory ends in a separator: it is separators only *)
      destruct (dirname_shape p) as [Hrep | [_ Hend]].
      * rewrite <- Hd. rewrite decide_True by exact Hrep. reflexivity.
      * rewrite Hd, endswith_snoc, Ascii.eqb_refl in Hend. discriminate.
    + subst pre. rewrite decide_False.
      * apply rstrip_unchanged, Hend.
      * intros E. rewrite length_app in E. cbn [length] in E.
        replace (length (dirname p) + 1)%nat with (S (length (dirname p))) in E by lia.
        rewrite <- repeat_snoc in E. apply app_inj_tail in E as [E _].
        destruct (length (dirname p)) as [|n] eqn:En.
        -- apply Hne. destruct (dirname p); [reflexivity | discriminate].
        -- rewrite E, endswith_repeat in Hend. discriminate.
Qed.

End DestinationFacts.

(** ** What [new_filename] and [rename] do to a file *)

Section RenameFacts.
Import PyStr posixpath.

(** An extension that passes the filter of [handle_event] starts with a
    dot and holds no separator. *)
Lemma valid_ext_dotted (b : str) :
  sep ∉ b ->
  strip (lower (splitext b).2) ∈ VALID_EXTS ->
  exists e, (splitext b).2 = extsep :: e /\ (sep ∉ e).
Proof.
  intros Hsep Hext.
  destruct (splitext_spec b Hsep) as (root & ext & Hs & Hb & Hcase).
  rewrite Hs in Hext |- *. cbn [snd] in Hext |- *.
  destruct Hcase as [[-> _] | (e & -> & _)].
  - exfalso. revert Hext. apply (bool_decide_unpack _). vm_compute. exact I.
  - exists e. split; [reflexivity|]. rewrite Hb in Hsep.
    apply not_elem_of_app in Hsep as [_ Hsep].
    apply not_elem_of_cons in Hsep as [_ Hsep]. exact Hsep.
Qed.

(** The name [new_filename] returns for a readable file. *)
Lemma new_filename_readable fs path data mtime :
  fs !! path = Some (os.File data mtime true) ->
  Calendar.min_seconds <= mtime / 1000000 <= Calendar.max_seconds ->
  exists ts,
    Calendar.timestamp_of (mtime / 1000000) ts
    /\ new_filename fs path
       = Ok (py "Screenshot-" ++ ts ++ py "-"
             ++ hashlib.hex32 (hashlib.rh (hashlib.sha256 data))
             ++ (splitext (basename path)).2).
Proof.
  intros Hfile Hrange.
  destruct (file_datetime_exists fs path _ Hfile Hrange) as (ts & Hts & Hlayout).
  exists ts. split; [exact Hlayout|].
  apply new_filename_parts; [exact Hts|].
  apply (checksum_partial_readable fs path data mtime Hfile).
Qed.

(** When [new_filename] returns, the file is readable and dated within
    range, and the name is the one above. *)
Lemma new_filename_inv fs path name :
  new_filename fs path = Ok name ->
  exists data mtime ts,
    fs !! path = Some (os.File data mtime true)
    /\ Calendar.min_seconds <= mtime / 1000000 <= Calendar.max_seconds
    /\ Calendar.timestamp_of (mtime / 1000000) ts
    /\ name = py "Screenshot-" ++ ts ++ py "-"
              ++ hashlib.hex32 (hashlib.rh (hashlib.sha256 data))
              ++ (splitext (basename path)).2.
Proof.
  intros Hnew.
  assert (Hck : exists ck, checksum_partial fs path = Ok ck).
  { revert Hnew. unfold new_filename.
    destruct (file_datetime fs path); cbn [bind]; [|discriminate].
    destruct (checksum_partial fs path); cbn [bind]; [eauto | discriminate]. }
  destruct Hck as (ck & Hck).
  destruct (checksum_partial_inv _ _ _ Hck) as (data & mtime & Hfile & _).
  assert (Hts : exists ts, file_datetime fs path = Ok ts).
  { revert Hnew. unfold new_filename.
    destruct (file_datetime fs path); cbn [bind]; [eauto | discriminate]. }
  destruct Hts as (ts0 & Hts0).
  destruct (file_datetime_inv _ _ _ Hts0) as (n & Hn & Hrange).
  rewrite Hfile in Hn. injection Hn as <-. cbn [os.node_mtime] in Hrange.
  destruct (new_filename_readable fs path data mtime Hfile Hrange) as (ts & Hlayout & Hname).
  exists data, mtime, ts. repeat split; try assumption; try lia.
  rewrite Hname in Hnew. injection Hnew as <-. reflexivity.
Qed.

(** Such a name, with a dotted extension, is canonical and holds no
    separator. *)
Lemma new_name_canonical secs ts (data : list byte) e :
  Calendar.timestamp_of secs ts ->
  sep ∉ e ->
  let name := py "Screenshot-" ++ ts ++ py "-"
              ++ hashlib.hex32 (hashlib.rh (hashlib.sha256 data)) ++ extsep :: e in
  Spec.canonical_name name /\ (sep ∉ name) /\ needs_rename name = false.
Proof.
  intros Hts He name.
  destruct (canonical_compose secs ts
              (hashlib.hex32 (hashlib.rh (hashlib.sha256 data))) e
              Hts (hex32_length _) (hex32_hex _) He) as [Hc Hb].
  fold name in Hc, Hb. split; [exact Hc|]. split.
  - rewrite <- Hb. apply basename_no_sep.
  - unfold needs_rename. rewrite Hb. apply negb_false_iff, VALID_FN_match, Hc.
Qed.


Lemma rename_refused fs path new_name :
  is_Some (fs !! join (dirname path) new_name) ->
  rename fs path new_name = Ok (fs, false).
Proof.
  intros [n Hn]. unfold rename, os.path_exists. rewrite Hn. reflexivity.
Qed.

(** [handle_event] past its filters, for a readable file: the move
    when the destination is free, the refusal when it is not. *)
Lemma handle_event_readable fs event data mtime :
  is_directory event = false ->
  strip (lower (splitext (basename (src_path event))).2) ∈ VALID_EXTS ->
  needs_rename (src_path event) = true ->
  fs !! src_path event = Some (os.File data mtime true) ->
  Calendar.min_seconds <= mtime / 1000000 <= Calendar.max_seconds ->
  exists ts e,
    Calendar.timestamp_of (mtime / 1000000) ts
    /\ (splitext (basename (src_path event))).2 = extsep :: e
    /\ (sep ∉ e)
    /\ let name := py "Screenshot-" ++ ts ++ py "-"
                   ++ hashlib.hex32 (hashlib.rh (hashlib.sha256 data))
                   ++ extsep :: e in
       let dest := join (dirname (src_path event)) name in
       new_filename fs (src_path event) = Ok name
       /\ (fs !! dest = None ->
           handle_event fs event
           = Ok (<[dest := os.File data mtime true]> (delete (src_path event) fs), true))
       /\ (is_Some (fs !! dest) -> handle_event fs event = Ok (fs, false)).
Proof.
  intros Hdir Hext Hneeds Hfile Hrange.
  destruct (valid_ext_dotted _ (basename_no_sep (src_path event)) Hext) as (e & He & Hsep).
  destruct (new_filename_readable fs _ data mtime Hfile Hrange) as (ts & Hts & Hname).
  rewrite He in Hname. exists ts, e. split; [exact Hts|]. split; [exact He|].
  split; [exact Hsep|]. cbv zeta. split; [exact Hname|].
  rewrite (handle_event_passed fs event Hdir Hext Hneeds), Hname. cbn [bind]. split.
  - intros Hfree. apply rename_moves; assumption.
  - apply rename_refused.
Qed.








(** What a returning [handle_event] did: nothing, with a false result,
    or the move of a readable image file to a free canonical name in
    its directory, with a true result. *)
Lemma handle_event_ok_inv fs event fs' b :
  handle_event fs event = Ok (fs', b) ->
  (b = false /\ fs' = fs)
  \/ (b = true
      /\ exists data mtime ts e,
           fs !! src_path event = Some (os.File data mtime true)
           /\ Calendar.timestamp_of (mtime / 1000000) ts
           /\ (sep ∉ e)
           /\ let name := py "Screenshot-" ++ ts ++ py "-"
                          ++ hashlib.hex32 (hashlib.rh (hashlib.sha256 data))
                          ++ extsep :: e in
              let dest := join (dirname (src_path event)) name in
              (splitext (basename (src_path event))).2 = extsep :: e
              /\ fs !! dest = None
              /\ fs' = <[dest := os.File data mtime true]> (delete (src_path event) fs)).
Proof.
  intros H.
  destruct (is_directory event) eqn:Hdir.
  { rewrite handle_event_filtered in H by auto. injection H as <- <-. auto. }
  destruct (decide (strip (lower (splitext (basename (src_path event))).2) ∈ VALID_EXTS))
    as [Hext | Hext].
  2: { rewrite handle_event_filtered in H by auto. injection H as <- <-. auto. }
  destruct (needs_rename (src_path event)) eqn:Hneeds.
  2: { rewrite handle_event_filtered in H by auto. injection H as <- <-. auto. }
  destruct (new_filename fs (src_path event)) as [name|err] eqn:Hnew.
  2: { rewrite (handle_event_passed fs event Hdir Hext Hneeds), Hnew in H.
       discriminate. }
  destruct (new_filename_inv _ _ _ Hnew) as (data & mtime & _ & Hfile & Hrange & _).
  destruct (handle_event_readable fs event data mtime Hdir Hext Hneeds Hfile Hrange)
    as (ts & e & Hts & He & Hsep & Hname & Hfree & Hbusy).
  cbv zeta in Hname, Hfree, Hbusy.
  destruct (fs !! join (dirname (src_path event))
                   (py "Screenshot-" ++ ts ++ py "-"
                    ++ hashlib.hex32 (hashlib.rh (hashlib.sha256 data)) ++ extsep :: e))
    as [d|] eqn:Hdest.
  - rewrite Hbusy in H by eauto. left. split; congruence.
  - rewrite Hfree in H by reflexivity. right.
    split; [congruence|]. exists data, mtime, ts, e. cbv zeta.
    split; [exact Hfile|]. split; [exact Hts|]. split; [exact Hsep|].
    split; [exact He|]. split; [exact Hdest | congruence].
Qed.

End RenameFacts.

(** ** The extension filter *)

Section FilterFacts.
Import PyStr posixpath.

Lemma lstrip_with_split p (s : str) :
  exists a, s = a ++ lstrip_with p s /\ forallb p a = true.
Proof.
  induction s as [|x s (a & Hs & Ha)]; cbn [lstrip_with].
  - exists []. auto.
  - destruct (p x) eqn:E.
    + exists (x :: a). cbn [app forallb]. rewrite E, Ha, <- Hs. auto.
    + exists []. auto.
Qed.

Lemma forallb_rev (p : ascii -> bool) (s : str) : forallb p (rev s) = forallb p s.
Proof.
  induction s as [|x s IH]; [reflexivity|].
  cbn [rev forallb]. rewrite forallb_app, IH. cbn [forallb].
  rewrite andb_true_r. apply andb_comm.
Qed.

Lemma rstrip_with_split p (s : str) :
  exists b, s = rstrip_with p s ++ b /\ forallb p b = true.
Proof.
  unfold rstrip_with. destruct (lstrip_with_split p (rev s)) as (a & Hs & Ha).
  exists (rev a). rewrite forallb_rev. split; [|exact Ha].
  rewrite <- rev_app_distr, <- Hs. symmetry. apply rev_involutive.
Qed.

(** [strip] removes white space at both ends and nothing else. *)
Lemma strip_split (s : str) :
  exists a b, s = a ++ strip s ++ b
              /\ forallb is_space a = true /\ forallb is_space b = true.
Proof.
  unfold strip. destruct (lstrip_with_split is_space s) as (a & Hs & Ha).
  destruct (rstrip_with_split is_space (lstrip_with is_space s)) as (b & Ht & Hb).
  exists a, b. rewrite <- Ht. auto.
Qed.

Lemma lstrip_with_spaces p (a s : str) :
  forallb p a = true -> lstrip_with p (a ++ s) = lstrip_with p s.
Proof.
  induction a as [|x a IH]; cbn [forallb app lstrip_with]; [reflexivity|].
  intros [Hx Ha]%andb_true_iff. rewrite Hx. auto.
Qed.

Lemma lstrip_with_stop p (x : ascii) (s : str) :
  p x = false -> lstrip_with p (x :: s) = x :: s.
Proof. intros H. cbn [lstrip_with]. rewrite H. reflexivity. Qed.

(** White space around a word that neither starts nor ends with white
    space is all that [strip] removes. *)
Lemma strip_padded (a b : str) x (w : str) y :
  forallb is_space a = true -> forallb is_space b = true ->
  is_space x = false -> is_space y = false ->
  strip (a ++ (x :: w ++ [y]) ++ b) = x :: w ++ [y].
Proof.
  intros Ha Hb Hx Hy. unfold strip, rstrip_with.
  rewrite lstrip_with_spaces by exact Ha. cbn [app].
  rewrite lstrip_with_stop by exact Hx.
  change (x :: (w ++ [y]) ++ b) with ((x :: w ++ [y]) ++ b).
  rewrite rev_app_distr, lstrip_with_spaces by (rewrite forallb_rev; exact Hb).
  change (x :: w ++ [y]) with ((x :: w) ++ [y]).
  rewrite rev_app_distr. cbn [rev app]. rewrite lstrip_with_stop by exact Hy.
  cbn [rev]. rewrite rev_app_distr, rev_involutive. reflexivity.
Qed.

Lemma is_space_lower c : is_space (lower_char c) = is_space c.
Proof. destruct c as [[] [] [] [] [] [] [] []]; reflexivity. Qed.

Lemma forallb_space_lower (s : str) :
  forallb is_space (lower s) = forallb is_space s.
Proof.
  induction s as [|x s IH]; [reflexivity|].
  cbn [lower map forallb]. rewrite is_space_lower. f_equal. exact IH.
Qed.

(** The members of [VALID_EXTS] start and end with a character that is
    not white space. *)
Lemma valid_ext_word v :
  v ∈ VALID_EXTS ->
  exists x w y, v = x :: w ++ [y] /\ is_space x = false /\ is_space y = false.
Proof.
  unfold VALID_EXTS. rewrite !elem_of_cons, elem_of_nil.
  intros [-> | [-> | [-> | []]]].
  - exists "."%char, (py "pn"), "g"%char. repeat split.
  - exists "."%char, (py "jp"), "g"%char. repeat split.
  - exists "."%char, (py "jpe"), "g"%char. repeat split.
Qed.

(** The extensions the filter lets through: an extension whose lower
    case is in [VALID_EXTS], with white space around it. *)
Lemma filter_passes_iff (ext : str) :
  strip (lower ext) ∈ VALID_EXTS
  <-> exists a x b,
        ext = a ++ x ++ b
        /\ forallb is_space a = true /\ forallb is_space b = true
        /\ (lower x ∈ VALID_EXTS).
Proof.
  split.
  - intros H. destruct (strip_split (lower ext)) as (a & b & Hs & Ha & Hb).
    unfold lower in Hs at 1. apply map_eq_app in Hs as (a' & r & -> & Ha' & Hr).
    apply map_eq_app in Hr as (x & b' & -> & Hx & Hb').
    exists a', x, b'. split; [reflexivity|].
    rewrite <- forallb_space_lower, <- (forallb_space_lower b').
    unfold lower at 1 2. rewrite Ha', Hb'.
    split; [exact Ha|]. split; [exact Hb|]. unfold lower. rewrite Hx. exact H.
  - intros (a & x & b & -> & Ha & Hb & Hx).
    destruct (valid_ext_word _ Hx) as (c & w & y & Hv & Hc & Hy).
    unfold lower in *. rewrite !map_app, Hv.
    rewrite strip_padded; [rewrite <- Hv; exact Hx | | | exact Hc | exact Hy].
    + fold (lower a). rewrite forallb_space_lower. exact Ha.
    + fold (lower b). rewrite forallb_space_lower. exact Hb.
Qed.

(** A base name made of leading dots and dot-free text has no
    extension. *)
Lemma splitext_leading_dots k (rest : str) :
  sep ∉ rest -> extsep ∉ rest ->
  (splitext (repeat extsep k ++ rest)).2 = [].
Proof.
  intros Hsep Hdot.
  assert (Hb : sep ∉ repeat extsep k ++ rest).
  { apply not_elem_of_app. split; [|exact Hsep].
    intros H. apply list_elem_of_In, repeat_spec in H. discriminate. }
  destruct (splitext_spec _ Hb) as (root & ext & -> & Hsplit & Hcase).
  cbn [snd]. destruct Hcase as [[-> _] | (e & -> & He & c & Hc & Hne)];
    [reflexivity|].
  exfalso. destruct k as [|k].
  - cbn [repeat app] in Hsplit. apply Hdot. rewrite Hsplit.
    apply elem_of_app. right. apply elem_of_cons. auto.
  - assert (Hlast : repeat extsep (S k) ++ rest = repeat extsep k ++ extsep :: rest).
    { rewrite <- repeat_snoc, <- app_assoc. reflexivity. }
    assert (Hlen : Z.of_nat (length root) = Z.of_nat k).
    { rewrite <- (rfind_app_last extsep root e He), <- Hsplit, Hlast.
      rewrite (rfind_app_last extsep _ rest Hdot), repeat_length. reflexivity. }
    apply Nat2Z.inj in Hlen.
    assert (Hroot : root = repeat extsep k).
    { apply (f_equal (take (length root))) in Hsplit.
      rewrite take_app_length, Hlast, Hlen in Hsplit.
      rewrite <- (repeat_length extsep k) in Hsplit at 1.
      rewrite take_app_length in Hsplit. symmetry. exact Hsplit. }
    rewrite Hroot in Hc. apply list_elem_of_In, repeat_spec in Hc. contradiction.
Qed.

End FilterFacts.

(** ** Properties *)

Section Properties.
Import PyStr posixpath.









(** X5.  The result of [handle_event] tells whether the file system
    changed: with false it is as before; with true the source node was
    there, the destination was free, the node is now at the destination
    in the same directory, and the source path is free. *)
Theorem handle_event_result_tells_change fs event fs' b :
  handle_event fs event = Ok (fs', b) ->
  (b = false -> fs' = fs)
  /\ (b = true ->
      exists n dest,
        fs !! src_path event = Some n
        /\ fs !! dest = None
        /\ dirname dest = dirname (src_path event)
        /\ fs' = <[dest := n]> (delete (src_path event) fs)
        /\ fs' !! src_path event = None
        /\ fs' <> fs).
Proof.
  intros H. destruct (handle_event_ok_inv _ _ _ _ H)
    as [[-> ->] | (-> & data & mtime & ts & e & Hfile & Hts & Hsep & Hrest)].
  - split; [reflexivity | discriminate].
  - split; [discriminate|]. intros _. cbv zeta in Hrest.
    destruct Hrest as (_ & Hfree & ->).
    destruct (new_name_canonical _ ts data e Hts Hsep) as (_ & Hnosep & _).
    cbv zeta in Hnosep.
    assert (Hgone : (<[join (dirname (src_path event))
                         (py "Screenshot-" ++ ts ++ py "-"
                          ++ hashlib.hex32 (hashlib.rh (hashlib.sha256 data))
                          ++ extsep :: e) := os.File data mtime true]>
                       (delete (src_path event) fs)) !! src_path event = None).
    { rewrite lookup_insert_ne by congruence. apply lookup_delete_eq. }
    eexists _, _. split; [exact Hfile|]. split; [exact Hfree|].
    split; [apply dirname_join_dirname; exact Hnosep|].
    split; [reflexivity|]. split; [exact Hgone|].
    intros E. rewrite E in Hgone. congruence.
Qed.

Lemma handle_event_result_tells_change_witness :
  handle_event Examples.fs_img (Event Examples.img false)
  = Ok ({[ py "/tmp/Screenshot-20231201-083000-f20015ad.PNG"
           := os.File (bytes_of "abc") 1701419400000000 true ]}, true)
  /\ exists n dest,
       Examples.fs_img !! Examples.img = Some n
       /\ Examples.fs_img !! dest = None
       /\ dirname dest = dirname Examples.img.
Proof.
  split; [exact handle_event_renames_img|].
  destruct (handle_event_result_tells_change _ _ _ _ handle_event_renames_img)
    as [_ H].
  destruct (H eq_refl) as (n & dest & H1 & H2 & H3 & _).
  exists n, dest. split; [exact H1|]. split; [exact H2 | exact H3].
Defined.












(** X12.  [handle_monitoring] registers a watch for a path exactly when
    the path is among those given and is a directory or a file: a
    directory with the recursive flag as given, a file always without
    recursion.  A path that is neither is never registered. *)
Theorem scheduled_iff fs paths recursive p r :
  (p, r) ∈ Monitoring.scheduled fs paths recursive
  <-> (p ∈ paths)
      /\ ((os.path_isdir fs p = true /\ r = recursive)
          \/ (os.path_isdir fs p = false /\ os.path_isfile fs p = true /\ r = false)).
Proof.
  induction paths as [|q paths IH]; cbn [Monitoring.scheduled].
  - split; [intros H; inversion H | intros [H _]; inversion H].
  - destruct (os.path_isdir fs q) eqn:Hd; [|destruct (os.path_isfile fs q) eqn:Hf].
    + rewrite !elem_of_cons, IH. split.
      * intros [[= -> ->] | [Hin Hc]]; auto.
      * intros [[-> | Hin] Hc]; [left | right; auto].
        destruct Hc as [[_ ->] | [Hd' _]]; [reflexivity | congruence].
    + rewrite !elem_of_cons, IH. split.
      * intros [[= -> ->] | [Hin Hc]]; auto.
      * intros [[-> | Hin] Hc]; [left | right; auto].
        destruct Hc as [[Hd' _] | (_ & _ & ->)]; [congruence | reflexivity].
    + rewrite elem_of_cons, IH. split.
      * intros [Hin Hc]. auto.
      * intros [[-> | Hin] Hc]; [|auto].
        destruct Hc as [[Hd' _] | (_ & Hf' & _)]; congruence.
Qed.



Lemma scheduled_iff_witness :
  Monitoring.scheduled Examples.fs_watch
    [Examples.tmp; Examples.nowhere; Examples.shot] true
  = [(Examples.tmp, true); (Examples.shot, false)]
  /\ ((Examples.shot, false)
      ∈ Monitoring.scheduled Examples.fs_watch
          [Examples.tmp; Examples.nowhere; Examples.shot] true)
  /\ ((Examples.nowhere, true)
      ∉ Monitoring.scheduled Examples.fs_watch
          [Examples.tmp; Examples.nowhere; Examples.shot] true).
Proof.
  split; [vm_compute; reflexivity|]. split.
  - apply scheduled_iff. split.
    + apply (bool_decide_unpack _). vm_compute. exact I.
    + right. repeat split; vm_compute; reflexivity.
  - intros H. apply scheduled_iff in H as [_ [[H _] | (_ & H & _)]];
      vm_compute in H; discriminate.
Defined.


(** X14.  [needs_rename] reads the base name only: for a name without
    separator, joined to any directory, the answer is the one for the
    name alone, so a canonical-looking directory does not make a file
    canonical. *)
Theorem needs_rename_reads_base_name (d name : str) :
  sep ∉ name -> needs_rename (join d name) = needs_rename name.
Proof.
  intros H. unfold needs_rename.
  rewrite (basename_join d name H), (basename_id name H). reflexivity.
Qed.

Lemma needs_rename_reads_base_name_witness :
  (sep ∉ py "shot.png")
  /\ needs_rename (join Examples.canonical_dir (py "shot.png")) = true
  /\ needs_rename (join Examples.canonical_dir (py "shot.png"))
     = needs_rename (py "shot.png").
Proof.
  assert (H : sep ∉ py "shot.png")
    by (apply (bool_decide_unpack _); vm_compute; exact I).
  split; [exact H|]. split; [vm_compute; reflexivity|].
  exact (needs_rename_reads_base_name Examples.canonical_dir (py "shot.png") H).
Defined.

(** X15.  The extension filter of [handle_event] lets a file through
    exactly when its extension is one whose lower case is [.png], [.jpg]
    or [.jpeg], followed by white space or nothing; an event for any
    other path renames nothing. *)
Theorem extension_filter_iff (path : str) :
  let ext := (splitext (basename path)).2 in
  let image := exists x b, ext = x ++ b /\ forallb is_space b = true
                           /\ (lower x ∈ VALID_EXTS) in
  (strip (lower ext) ∈ VALID_EXTS <-> image)
  /\ (~ image -> forall fs is_dir, handle_event fs (Event path is_dir) = Ok (fs, false)).
Proof.
  intros ext image.
  assert (Hiff : strip (lower ext) ∈ VALID_EXTS <-> image).
  { rewrite filter_passes_iff. unfold image. split.
    - intros (a & x & b & Hext & Ha & Hb & Hx).
      destruct a as [|c a]; [exists x, b; auto|]. exfalso.
      cbn [forallb] in Ha. apply andb_true_iff in Ha as [Hc _].
      destruct (splitext_spec _ (basename_no_sep path))
        as (root & ext' & Hs & _ & [[E _] | (e & E & _)]);
        unfold ext in Hext; rewrite Hs in Hext; cbn [snd] in Hext;
        rewrite E in Hext; [discriminate|].
      injection Hext as <- _. discriminate.
    - intros (x & b & Hext & Hb & Hx). exists [], x, b. auto. }
  split; [exact Hiff|]. intros Hno fs is_dir.
  apply handle_event_filtered. right. left. cbn [src_path].
  fold ext. rewrite Hiff. exact Hno.
Qed.

(** X16.  A file whose base name has no extension (no dot, or nothing
    but dots before dot-free text, as in the hidden file [.png]) is
    ignored: [handle_event] renames nothing. *)
Theorem handle_event_ignores_names_without_extension fs is_dir path k (rest : str) :
  basename path = repeat extsep k ++ rest ->
  extsep ∉ rest ->
  handle_event fs (Event path is_dir) = Ok (fs, false).
Proof.
  intros Hb Hdot.
  assert (Hsep : sep ∉ rest).
  { pose proof (basename_no_sep path) as H. rewrite Hb in H.
    apply not_elem_of_app in H as [_ H]. exact H. }
  apply handle_event_filtered. right. left. cbn [src_path].
  rewrite Hb, (splitext_leading_dots k rest Hsep Hdot).
  apply (bool_decide_unpack _). vm_compute. exact I.
Qed.

Lemma handle_event_ignores_names_without_extension_witness :
  basename Examples.hidden = repeat extsep 1 ++ py "png"
  /\ (extsep ∉ py "png")
  /\ forall fs is_dir, handle_event fs (Event Examples.hidden is_dir) = Ok (fs, false).
Proof.
  assert (H1 : basename Examples.hidden = repeat extsep 1 ++ py "png") by reflexivity.
  assert (H2 : extsep ∉ py "png")
    by (apply (bool_decide_unpack _); vm_compute; exact I).
  split; [exact H1|]. split; [exact H2|]. intros fs is_dir.
  exact (handle_event_ignores_names_without_extension fs is_dir _ _ _ H1 H2).
Defined.

Lemma extension_filter_iff_witness :
  (strip (lower (splitext (basename Examples.shot_space)).2) ∈ VALID_EXTS)
  /\ forall fs is_dir,
       handle_event fs (Event Examples.animation is_dir) = Ok (fs, false).
Proof.
  split.
  - destruct (extension_filter_iff Examples.shot_space) as [[_ H] _].
    apply H. exists (py ".png"), (py " ").
    split; [reflexivity|]. split; [reflexivity|].
    apply (bool_decide_unpack _). vm_compute. exact I.
  - destruct (extension_filter_iff Examples.animation) as [[_ H] H'].
    apply H'. intros Himage. apply H in Himage. revert Himage.
    apply (bool_decide_unpack _). vm_compute. exact I.
Defined.

End Properties.
